(** * showbook-API: the booking ledger and its access control

    A shallow embedding of [backend/main.py], [backend/models.py] and
    [backend/database.py].  Handlers are written in a small monad whose
    effects are the calls made on the MongoDB collections; the monad is
    run either to completion (one request at a time) or one store call at
    a time, interleaved with the store calls of other requests.

    What the repository imports rather than defines is kept at its
    documented contract:
    - passlib and the JWS signature layer of python-jose are functions of
      the environment [Env]; nothing is assumed about them unless a
      statement says so;
    - a MongoDB collection is the list of its documents in insertion
      order, and each call on a collection is one atomic step of the
      store; the store takes every document it is given, and an empty
      [$set] changes nothing;
    - FastAPI hands a handler the path, query and body already parsed
      into the models of [models.py]; [OAuth2PasswordBearer] reads the
      [Authorization] header;
    - [datetime] is a count of microseconds since the epoch and
      [timedelta] a count of microseconds, both unbounded. *)

From Stdlib Require Import ZArith NArith List String Ascii Bool Lia.
From Stdlib Require Import SpecFloat.
Import ListNotations.

Local Open Scope string_scope.
Local Open Scope Z_scope.

(** ** Python and BSON values *)

(** [bson.ObjectId]: twelve bytes, shown by [str] as 24 lowercase
    hexadecimal digits and read back by [ObjectId(s)]. *)
Definition ObjectId := N.

Definition hex_digit (n : N) : ascii :=
  match n with
  | 0%N => "0" | 1%N => "1" | 2%N => "2" | 3%N => "3"
  | 4%N => "4" | 5%N => "5" | 6%N => "6" | 7%N => "7"
  | 8%N => "8" | 9%N => "9" | 10%N => "a" | 11%N => "b"
  | 12%N => "c" | 13%N => "d" | 14%N => "e" | _ => "f"
  end%char.

Fixpoint hex_be (width : nat) (n : N) : string :=
  match width with
  | O => ""
  | S w => hex_be w (n / 16)%N ++ String (hex_digit (n mod 16)%N) ""
  end.

(** [str(oid)] *)
Definition str_oid (o : ObjectId) : string := hex_be 24 o.

Definition hex_value (c : ascii) : option N :=
  let n := N_of_ascii c in
  if ((48 <=? n) && (n <=? 57))%N then Some (n - 48)%N
  else if ((97 <=? n) && (n <=? 102))%N then Some (n - 87)%N
  else if ((65 <=? n) && (n <=? 70))%N then Some (n - 55)%N
  else None.

Fixpoint parse_hex (s : string) (acc : N) : option N :=
  match s with
  | EmptyString => Some acc
  | String c r =>
      match hex_value c with
      | Some d => parse_hex r (acc * 16 + d)%N
      | None => None
      end
  end.

(** [ObjectId(s)] for a [str]: [None] stands for [bson.errors.InvalidId]. *)
Definition ObjectId_of_str (s : string) : option ObjectId :=
  if Nat.eqb (String.length s) 24 then parse_hex s 0%N else None.

(** Python [float] is an IEEE 754 binary64 value. *)
Definition float := spec_float.

(** [bool(x)] of a float: only the two zeros are falsy. *)
Definition float_truthy (x : float) : bool :=
  match x with
  | S754_zero _ => false
  | _ => true
  end.

(** The literal [4], compared with a float as [4.0] = 2^52 * 2^-50. *)
Definition four : float := S754_finite false 4503599627370496 (-50).

(** [x >= y] on floats. *)
Definition float_ge (x y : float) : bool := SFleb y x.
(** [x < y] on floats. *)
Definition float_lt (x y : float) : bool := SFltb x y.
(** [x == y] on floats. *)
Definition float_eq (x y : float) : bool := SFeqb x y.

Definition is_nan (x : float) : bool :=
  match x with
  | S754_nan => true
  | _ => false
  end.

(** [datetime] and [timedelta], in microseconds. *)
Definition datetime := Z.
Definition timedelta := Z.
(** [datetime.date], in days since the epoch. *)
Definition date := Z.

Definition timedelta_minutes (m : Z) : timedelta := m * 60000000.

(** [bool(td)] of a timedelta: false for the zero duration only. *)
Definition timedelta_truthy (d : timedelta) : bool := negb (d =? 0).

(** [calendar.timegm(d.utctimetuple())]: whole seconds, the microseconds
    are dropped. *)
Definition timegm (d : datetime) : Z := d / 1000000.

Definition day_us : Z := 86400000000.
(** [datetime.combine(d, datetime.min.time())] *)
Definition start_of_day (d : date) : datetime := d * day_us.
(** [datetime.combine(d, datetime.max.time())], 23:59:59.999999 *)
Definition end_of_day (d : date) : datetime := d * day_us + (day_us - 1).

(** [bool(s)] of a str. *)
Definition str_truthy (s : string) : bool :=
  match s with
  | EmptyString => false
  | _ => true
  end.

(** [s.lower()] on the ASCII letters. *)
Definition lower_ascii (c : ascii) : ascii :=
  let n := N_of_ascii c in
  if ((65 <=? n) && (n <=? 90))%N then ascii_of_N (n + 32) else c.

Fixpoint lower (s : string) : string :=
  match s with
  | EmptyString => EmptyString
  | String c r => String (lower_ascii c) (lower r)
  end.

(** [head, _, tail = s.partition(" ")] *)
Fixpoint partition_space (s : string) : string * string :=
  match s with
  | EmptyString => (EmptyString, EmptyString)
  | String c r =>
      if Ascii.eqb c " "%char then (EmptyString, r)
      else let (h, t) := partition_space r in (String c h, t)
  end.

(** ** models.py *)

Record UserCreate := {
  uc_username : string;
  uc_email : string;
  uc_password : string;
  uc_phone : string;
  uc_is_admin : option bool
}.

Record UserResponse := {
  ur_username : string;
  ur_email : string;
  ur_phone : string;
  ur_is_admin : option bool
}.

Record MovieCreate := {
  mc_title : string;
  mc_genre : string;
  mc_rating : float;
  mc_duration : Z;
  mc_release_date : datetime
}.

(** A field of [MovieUpdate] is unset ([None]), set to null
    ([Some None]) or set to a value; [dict(exclude_unset=True)] keeps the
    last two. *)
Record MovieUpdate := {
  mu_title : option (option string);
  mu_genre : option (option string);
  mu_rating : option (option float);
  mu_duration : option (option Z);
  mu_release_date : option (option datetime)
}.

Record CinemaHallCreate := {
  hc_name : string;
  hc_address : string;
  hc_phone : string
}.

Record ScreenCreate := {
  sc_hall_id : string;
  sc_name : string;
  sc_total_seats : Z
}.

Record ShowCreate := {
  shc_movie_id : string;
  shc_screen_id : string;
  shc_show_time : datetime
}.

Record BookingCreate := {
  bc_show_id : string;
  bc_user_id : string;
  bc_seat_number : Z
}.

Record ShowResponse := {
  sr_show_id : string;
  sr_movie_id : string;
  sr_screen_id : string;
  sr_show_time : datetime;
  sr_movie_title : option string
}.

Record MovieSearchResponse := {
  msr_movie_id : string;
  msr_title : string;
  msr_genre : string;
  msr_rating : float;
  msr_duration : Z;
  msr_release_date : datetime
}.

(** ** database.py: the documents of the six collections *)

Record User := {
  u_id : ObjectId;
  u_username : string;
  u_email : string;
  u_password : string;
  u_phone : string;
  u_is_admin : option bool
}.

(** The fields of a movie can be null after [update_movie]. *)
Record Movie := {
  m_id : ObjectId;
  m_title : option string;
  m_genre : option string;
  m_rating : option float;
  m_duration : option Z;
  m_release_date : option datetime
}.

Record CinemaHall := {
  h_id : ObjectId;
  h_name : string;
  h_address : string;
  h_phone : string
}.

Record Screen := {
  s_id : ObjectId;
  s_hall_id : string;
  s_name : string;
  s_total_seats : Z
}.

Record Show := {
  sh_id : ObjectId;
  sh_movie_id : string;
  sh_screen_id : string;
  sh_show_time : datetime
}.

Record Booking := {
  b_id : ObjectId;
  b_show_id : string;
  b_user_id : string;
  b_seat_number : Z
}.

(** [db = client.movie_booking]; [next_oid] is the supply of fresh
    [_id]s. *)
Record Database := {
  users_collection : list User;
  movies_collection : list Movie;
  cinema_halls_collection : list CinemaHall;
  screens_collection : list Screen;
  shows_collection : list Show;
  bookings_collection : list Booking;
  next_oid : N
}.

Definition empty_db : Database :=
  {| users_collection := [];
     movies_collection := [];
     cinema_halls_collection := [];
     screens_collection := [];
     shows_collection := [];
     bookings_collection := [];
     next_oid := 0%N |}.

(** ** What the program imports

    [SECRET_KEY], [ALGORITHM] and [ACCESS_TOKEN_EXPIRE_MINUTES] come from
    the process environment.  [pwd_hash salt password] is
    [pwd_context.hash] (bcrypt draws the salt), [pwd_verify] is
    [pwd_context.verify].  [jws_sign claims key algorithm] is the compact
    serialisation python-jose signs, and [jws_verify token key algorithms]
    gives back the claims of a well-formed token whose signature verifies
    under [key] with one of [algorithms].  [regex_search_i pattern s] is
    the case-insensitive [$regex] match of MongoDB. *)

(** The claims this program writes and reads: [sub] and [exp], the
    latter in whole seconds as a JWT NumericDate. *)
Record Claims := {
  claim_sub : option string;
  claim_exp : option Z
}.

Record Env := {
  SECRET_KEY : string;
  ALGORITHM : string;
  ACCESS_TOKEN_EXPIRE_MINUTES : Z;
  pwd_hash : string -> string -> string;
  pwd_verify : string -> string -> bool;
  jws_sign : Claims -> string -> string -> string;
  jws_verify : string -> string -> list string -> option Claims;
  regex_search_i : string -> string -> bool
}.

(** ** Queries on the collections *)

(** [query["rating"]] is either [{"$gte": r}] or the bare number [r]. *)
Inductive RatingCond :=
| RatingGte (r : float)
| RatingEq (r : float).

Record MovieQuery := {
  q_title : option string;
  q_genre : option string;
  q_rating : option RatingCond
}.

(** [query["show_time"] = {"$gte": lo, "$lt": hi}] *)
Record ShowQuery := {
  sq_movie_id : option string;
  sq_show_time : option (datetime * datetime)
}.

(** MongoDB compares doubles numerically; NaN matches NaN only. *)
Definition mongo_num_eq (field r : float) : bool :=
  if is_nan field || is_nan r then is_nan field && is_nan r
  else float_eq field r.

Definition mongo_num_gte (field r : float) : bool :=
  if is_nan field || is_nan r then is_nan field && is_nan r
  else float_ge field r.

Definition rating_matches (c : RatingCond) (field : option float) : bool :=
  match field with
  | None => false
  | Some x =>
      match c with
      | RatingGte r => mongo_num_gte x r
      | RatingEq r => mongo_num_eq x r
      end
  end.

Definition opt_str_eq (field : option string) (v : string) : bool :=
  match field with
  | Some s => String.eqb s v
  | None => false
  end.

Definition booking_matches (show_id : string) (seat_number : Z) (b : Booking) : bool :=
  String.eqb (b_show_id b) show_id && (b_seat_number b =? seat_number).

Definition show_matches (q : ShowQuery) (s : Show) : bool :=
  match sq_movie_id q with
  | Some id => String.eqb (sh_movie_id s) id
  | None => true
  end &&
  match sq_show_time q with
  | Some (lo, hi) => (lo <=? sh_show_time s) && (sh_show_time s <? hi)
  | None => true
  end.

(** [{"$set": movie.dict(exclude_unset=True)}] on one movie. *)
Definition set_field {A} (upd : option (option A)) (old : option A) : option A :=
  match upd with
  | Some v => v
  | None => old
  end.

Definition apply_set (mu : MovieUpdate) (m : Movie) : Movie :=
  {| m_id := m_id m;
     m_title := set_field (mu_title mu) (m_title m);
     m_genre := set_field (mu_genre mu) (m_genre m);
     m_rating := set_field (mu_rating mu) (m_rating m);
     m_duration := set_field (mu_duration mu) (m_duration m);
     m_release_date := set_field (mu_release_date mu) (m_release_date m) |}.

(** Update, respectively delete, the first document that matches; the
    number is [matched_count], respectively [deleted_count]. *)
Fixpoint update_first {A} (p : A -> bool) (f : A -> A) (l : list A) : list A * Z :=
  match l with
  | [] => ([], 0)
  | x :: r =>
      if p x then (f x :: r, 1)
      else let (r', n) := update_first p f r in (x :: r', n)
  end.

Fixpoint delete_first {A} (p : A -> bool) (l : list A) : list A * Z :=
  match l with
  | [] => ([], 0)
  | x :: r =>
      if p x then (r, 1)
      else let (r', n) := delete_first p r in (x :: r', n)
  end.

(** ** The calls the handlers make on the store, and a request as a program *)

Inductive dbop : Type -> Type :=
| Users_find_one (email : string) : dbop (option User)
| Users_insert_one (user_dict : UserCreate) : dbop ObjectId
| CinemaHalls_insert_one (hall_dict : CinemaHallCreate) : dbop ObjectId
| Screens_insert_one (screen_dict : ScreenCreate) : dbop ObjectId
| Shows_insert_one (show_dict : ShowCreate) : dbop ObjectId
| Shows_find (query : ShowQuery) (length : nat) : dbop (list Show)
| Shows_delete_many (movie_id : string) : dbop Z
| Movies_insert_one (movie_dict : MovieCreate) : dbop ObjectId
| Movies_find_one (_id : ObjectId) : dbop (option Movie)
| Movies_update_one (_id : ObjectId) (set : MovieUpdate) : dbop Z
| Movies_delete_one (_id : ObjectId) : dbop Z
| Movies_find (query : MovieQuery) (length : nat) : dbop (list Movie)
| Bookings_find_one_and_update
    (show_id : string) (seat_number : Z) (set_on_insert : BookingCreate)
  : dbop (option Booking).

Inductive Prog (A : Type) : Type :=
| Ret (a : A)
| Do (X : Type) (op : dbop X) (k : X -> Prog A).
Arguments Ret {A} a.
Arguments Do {A X} op k.

Fixpoint bind {A B} (p : Prog A) (f : A -> Prog B) : Prog B :=
  match p with
  | Ret a => f a
  | Do op k => Do op (fun x => bind (k x) f)
  end.

(** What a handler raises: an [HTTPException], or an exception nobody
    catches (the server answers 500). *)
Inductive Exn :=
| HTTPException (status_code : Z) (detail : string) (headers : list (string * string))
| Unhandled (name : string).

(** A handler either raises or returns. *)
Definition Handler (A : Type) : Type := Prog (Exn + A).

Definition ret {A} (a : A) : Handler A := Ret (inr a).
Definition raise {A} (e : Exn) : Handler A := Ret (inl e).
Definition await {X} (op : dbop X) : Handler X := Do op (fun x => Ret (inr x)).
Definition lift {A} (r : Exn + A) : Handler A := Ret r.

Definition hbind {A B} (p : Handler A) (f : A -> Handler B) : Handler B :=
  bind p (fun r => match r with
                   | inl e => Ret (inl e)
                   | inr a => f a
                   end).

Declare Scope handler_scope.
Delimit Scope handler_scope with handler.
Notation "x <- p ;; q" := (hbind p (fun x => q))
  (at level 61, p at next level, right associativity) : handler_scope.
Notation "p ;; q" := (hbind p (fun _ => q))
  (at level 61, right associativity) : handler_scope.

(** Replacing one collection of the database. *)
Definition set_users (db : Database) (l : list User) : Database :=
  {| users_collection := l;
     movies_collection := movies_collection db;
     cinema_halls_collection := cinema_halls_collection db;
     screens_collection := screens_collection db;
     shows_collection := shows_collection db;
     bookings_collection := bookings_collection db;
     next_oid := next_oid db |}.

Definition set_movies (db : Database) (l : list Movie) : Database :=
  {| users_collection := users_collection db;
     movies_collection := l;
     cinema_halls_collection := cinema_halls_collection db;
     screens_collection := screens_collection db;
     shows_collection := shows_collection db;
     bookings_collection := bookings_collection db;
     next_oid := next_oid db |}.

Definition set_cinema_halls (db : Database) (l : list CinemaHall) : Database :=
  {| users_collection := users_collection db;
     movies_collection := movies_collection db;
     cinema_halls_collection := l;
     screens_collection := screens_collection db;
     shows_collection := shows_collection db;
     bookings_collection := bookings_collection db;
     next_oid := next_oid db |}.

Definition set_screens (db : Database) (l : list Screen) : Database :=
  {| users_collection := users_collection db;
     movies_collection := movies_collection db;
     cinema_halls_collection := cinema_halls_collection db;
     screens_collection := l;
     shows_collection := shows_collection db;
     bookings_collection := bookings_collection db;
     next_oid := next_oid db |}.

Definition set_shows (db : Database) (l : list Show) : Database :=
  {| users_collection := users_collection db;
     movies_collection := movies_collection db;
     cinema_halls_collection := cinema_halls_collection db;
     screens_collection := screens_collection db;
     shows_collection := l;
     bookings_collection := bookings_collection db;
     next_oid := next_oid db |}.

Definition set_bookings (db : Database) (l : list Booking) : Database :=
  {| users_collection := users_collection db;
     movies_collection := movies_collection db;
     cinema_halls_collection := cinema_halls_collection db;
     screens_collection := screens_collection db;
     shows_collection := shows_collection db;
     bookings_collection := l;
     next_oid := next_oid db |}.

(** Drawing a fresh [_id]. *)
Definition bump_oid (db : Database) : Database :=
  {| users_collection := users_collection db;
     movies_collection := movies_collection db;
     cinema_halls_collection := cinema_halls_collection db;
     screens_collection := screens_collection db;
     shows_collection := shows_collection db;
     bookings_collection := bookings_collection db;
     next_oid := N.succ (next_oid db) |}.

Section Program.

Variable E : Env.

Definition movie_matches (q : MovieQuery) (m : Movie) : bool :=
  match q_title q with
  | Some pattern =>
      match m_title m with
      | Some t => regex_search_i E pattern t
      | None => false
      end
  | None => true
  end &&
  match q_genre q with
  | Some g => opt_str_eq (m_genre m) g
  | None => true
  end &&
  match q_rating q with
  | Some c => rating_matches c (m_rating m)
  | None => true
  end.

(** One call on the store, as one atomic step. *)
Definition exec {X} (op : dbop X) (db : Database) : Database * X :=
  match op in dbop X return Database * X with
  | Users_find_one email =>
      (db, find (fun u => String.eqb (u_email u) email) (users_collection db))
  | Users_insert_one d =>
      let oid := next_oid db in
      (bump_oid (set_users db (users_collection db ++
         [{| u_id := oid; u_username := uc_username d; u_email := uc_email d;
             u_password := uc_password d; u_phone := uc_phone d;
             u_is_admin := uc_is_admin d |}])), oid)
  | CinemaHalls_insert_one d =>
      let oid := next_oid db in
      (bump_oid (set_cinema_halls db (cinema_halls_collection db ++
         [{| h_id := oid; h_name := hc_name d; h_address := hc_address d;
             h_phone := hc_phone d |}])), oid)
  | Screens_insert_one d =>
      let oid := next_oid db in
      (bump_oid (set_screens db (screens_collection db ++
         [{| s_id := oid; s_hall_id := sc_hall_id d; s_name := sc_name d;
             s_total_seats := sc_total_seats d |}])), oid)
  | Shows_insert_one d =>
      let oid := next_oid db in
      (bump_oid (set_shows db (shows_collection db ++
         [{| sh_id := oid; sh_movie_id := shc_movie_id d;
             sh_screen_id := shc_screen_id d;
             sh_show_time := shc_show_time d |}])), oid)
  | Shows_find q n =>
      (db, firstn n (filter (show_matches q) (shows_collection db)))
  | Shows_delete_many movie_id =>
      let keep := filter (fun s => negb (String.eqb (sh_movie_id s) movie_id))
                         (shows_collection db) in
      (set_shows db keep,
       Z.of_nat (List.length (shows_collection db)) - Z.of_nat (List.length keep))
  | Movies_insert_one d =>
      let oid := next_oid db in
      (bump_oid (set_movies db (movies_collection db ++
         [{| m_id := oid; m_title := Some (mc_title d);
             m_genre := Some (mc_genre d); m_rating := Some (mc_rating d);
             m_duration := Some (mc_duration d);
             m_release_date := Some (mc_release_date d) |}])), oid)
  | Movies_find_one oid =>
      (db, find (fun m => N.eqb (m_id m) oid) (movies_collection db))
  | Movies_update_one oid mu =>
      let (l, matched) :=
        update_first (fun m => N.eqb (m_id m) oid) (apply_set mu)
                     (movies_collection db) in
      (set_movies db l, matched)
  | Movies_delete_one oid =>
      let (l, deleted) :=
        delete_first (fun m => N.eqb (m_id m) oid) (movies_collection db) in
      (set_movies db l, deleted)
  | Movies_find q n =>
      (db, firstn n (filter (movie_matches q) (movies_collection db)))
  | Bookings_find_one_and_update show_id seat_number d =>
      match find (booking_matches show_id seat_number) (bookings_collection db) with
      | Some before => (db, Some before)
      | None =>
          let oid := next_oid db in
          (bump_oid (set_bookings db (bookings_collection db ++
             [{| b_id := oid; b_show_id := bc_show_id d;
                 b_user_id := bc_user_id d;
                 b_seat_number := bc_seat_number d |}])), None)
      end
  end.

(** A request handled alone, from its first store call to its last. *)
Fixpoint run {A} (p : Prog A) (db : Database) : Database * A :=
  match p with
  | Ret a => (db, a)
  | Do op k => let (db', x) := exec op db in run (k x) db'
  end.

(** ** main.py *)

(** What a request reads from its surroundings: the clock and the salt
    bcrypt draws. *)
Record Runtime := {
  utcnow : datetime;
  gensalt : string
}.

Definition verify_password (plain_password hashed_password : string) : bool :=
  pwd_verify E plain_password hashed_password.

Definition get_password_hash (rt : Runtime) (password : string) : string :=
  pwd_hash E (gensalt rt) password.

(** [jwt.encode]: an [exp] given as a datetime becomes whole seconds. *)
Definition jwt_encode (sub : option string) (exp : option datetime)
    (key algorithm : string) : string :=
  jws_sign E {| claim_sub := sub; claim_exp := option_map timegm exp |}
           key algorithm.

Inductive JWTError :=
| JWSError
| ExpiredSignatureError.

(** [jwt.decode]: the signature, then [exp] against the clock. *)
Definition jwt_decode (now : datetime) (token key : string)
    (algorithms : list string) : JWTError + Claims :=
  match jws_verify E token key algorithms with
  | None => inl JWSError
  | Some payload =>
      match claim_exp payload with
      | Some exp =>
          if exp <? timegm now then inl ExpiredSignatureError else inr payload
      | None => inr payload
      end
  end.

Definition create_access_token (now : datetime) (data : Claims)
    (expires_delta : option timedelta) : string :=
  let expire :=
    match expires_delta with
    | Some d =>
        if timedelta_truthy d then now + d else now + timedelta_minutes 15
    | None => now + timedelta_minutes 15
    end in
  jwt_encode (claim_sub data) (Some expire) (SECRET_KEY E) (ALGORITHM E).

Local Open Scope handler_scope.

Definition get_user (email : string) : Handler (option User) :=
  await (Users_find_one email).

(** [None] is the [False] the source returns. *)
Definition authenticate_user (email password : string) : Handler (option User) :=
  user <- get_user email ;;
  match user with
  | None => ret None
  | Some u =>
      if negb (verify_password password (u_password u)) then ret None
      else ret (Some u)
  end.

Definition bearer_challenge : list (string * string) :=
  [("WWW-Authenticate", "Bearer")].

(** [fastapi.security.utils.get_authorization_scheme_param] *)
Definition get_authorization_scheme_param (authorization : option string)
  : string * string :=
  match authorization with
  | None => ("", "")
  | Some v => if str_truthy v then partition_space v else ("", "")
  end.

(** [OAuth2PasswordBearer(tokenUrl="token")], called on the
    [Authorization] header of the request. *)
Definition oauth2_scheme (authorization : option string) : Exn + string :=
  let (scheme, param) := get_authorization_scheme_param authorization in
  let absent :=
    match authorization with
    | None => true
    | Some v => negb (str_truthy v)
    end in
  if absent || negb (String.eqb (lower scheme) "bearer")
  then inl (HTTPException 401 "Not authenticated" bearer_challenge)
  else inr param.

Definition credentials_exception : Exn :=
  HTTPException 401 "Could not validate credentials" bearer_challenge.

Definition get_current_user (now : datetime) (token : string) : Handler User :=
  match jwt_decode now token (SECRET_KEY E) [ALGORITHM E] with
  | inl _ => raise credentials_exception
  | inr payload =>
      match claim_sub payload with
      | None => raise credentials_exception
      | Some email =>
          user <- get_user email ;;
          match user with
          | None => raise credentials_exception
          | Some u => ret u
          end
      end
  end.

(** [bool(user.get("is_admin"))] *)
Definition is_admin_flag (user : User) : bool :=
  match u_is_admin user with
  | Some true => true
  | _ => false
  end.

Definition is_admin_user (user : User) : Exn + User :=
  if negb (is_admin_flag user)
  then inl (HTTPException 403 "Not enough permissions" [])
  else inr user.

(** The JSON a handler answers with. *)
Inductive Content :=
| JUser (u : UserResponse)
| JToken (access_token token_type : string)
| JCinemaHall (h : CinemaHallCreate)
| JScreen (s : ScreenCreate)
| JShow (s : ShowCreate)
| JMovie (m : MovieCreate)
| JMovies (l : list MovieSearchResponse)
| JShows (l : list ShowResponse)
| JMessage (message : string)
| JDetail (detail : string)
| PlainText (text : string).

(** POST /api/signup *)
Definition create_user (rt : Runtime) (user : UserCreate) : Handler Content :=
  let user_dict :=
    {| uc_username := uc_username user;
       uc_email := uc_email user;
       uc_password := get_password_hash rt (uc_password user);
       uc_phone := uc_phone user;
       uc_is_admin := uc_is_admin user |} in
  _ <- await (Users_insert_one user_dict) ;;
  ret (JUser {| ur_username := uc_username user_dict;
                ur_email := uc_email user_dict;
                ur_phone := uc_phone user_dict;
                ur_is_admin := uc_is_admin user_dict |}).

(** POST /token *)
Definition login_for_access_token (rt : Runtime)
    (form_username form_password : string) : Handler Content :=
  user <- authenticate_user form_username form_password ;;
  match user with
  | None =>
      raise (HTTPException 401 "Incorrect username or password" bearer_challenge)
  | Some u =>
      let access_token_expires :=
        timedelta_minutes (ACCESS_TOKEN_EXPIRE_MINUTES E) in
      let access_token :=
        create_access_token (utcnow rt)
          {| claim_sub := Some (u_email u); claim_exp := None |}
          (Some access_token_expires) in
      ret (JToken access_token "bearer")
  end.

(** POST /api/cinemahalls *)
Definition create_cinema_hall (hall : CinemaHallCreate) : Handler Content :=
  _ <- await (CinemaHalls_insert_one hall) ;;
  ret (JCinemaHall hall).

(** POST /api/screens *)
Definition create_screen (screen : ScreenCreate) : Handler Content :=
  _ <- await (Screens_insert_one screen) ;;
  ret (JScreen screen).

(** POST /api/shows *)
Definition create_show (show : ShowCreate) : Handler Content :=
  _ <- await (Shows_insert_one show) ;;
  ret (JShow show).

(** POST /api/movies *)
Definition create_movie (movie : MovieCreate) (current_user : User)
  : Handler Content :=
  _ <- await (Movies_insert_one movie) ;;
  ret (JMovie movie).

(** [ObjectId(id)], raising [InvalidId]. *)
Definition to_ObjectId (id : string) : Handler ObjectId :=
  match ObjectId_of_str id with
  | Some oid => ret oid
  | None => raise (Unhandled "InvalidId")
  end.

(** [models.MovieCreate] built from a stored movie: a null field fails
    validation. *)
Definition MovieCreate_of (movie : Movie) : option MovieCreate :=
  match m_title movie, m_genre movie, m_rating movie,
        m_duration movie, m_release_date movie with
  | Some t, Some g, Some r, Some d, Some rd =>
      Some {| mc_title := t; mc_genre := g; mc_rating := r;
              mc_duration := d; mc_release_date := rd |}
  | _, _, _, _, _ => None
  end.

(** GET /api/movies/{id} *)
Definition read_movie (id : string) (current_user : User) : Handler Content :=
  oid <- to_ObjectId id ;;
  movie <- await (Movies_find_one oid) ;;
  match movie with
  | None => raise (HTTPException 404 "Movie not found" [])
  | Some m =>
      match MovieCreate_of m with
      | Some mc => ret (JMovie mc)
      | None => raise (Unhandled "ValidationError")
      end
  end.

(** PUT /api/movies/{id} *)
Definition update_movie (id : string) (movie : MovieUpdate)
    (current_user : User) : Handler Content :=
  oid <- to_ObjectId id ;;
  matched_count <- await (Movies_update_one oid movie) ;;
  if matched_count =? 0
  then raise (HTTPException 404 "Movie not found" [])
  else ret (JMessage "Movie updated").

(** DELETE /api/movies/{id} *)
Definition delete_movie (id : string) (current_user : User) : Handler Content :=
  oid <- to_ObjectId id ;;
  deleted_count <- await (Movies_delete_one oid) ;;
  if deleted_count =? 0
  then raise (HTTPException 404 "Movie not found" [])
  else
    _ <- await (Shows_delete_many id) ;;
    ret (JMessage "Movie and related shows deleted").

(** [query["rating"] = {"$gte": rating} if rating >= 4 else rating],
    under [if rating:]. *)
Definition rating_query (rating : option float) : option RatingCond :=
  match rating with
  | None => None
  | Some r =>
      if float_truthy r
      then Some (if float_ge r four then RatingGte r else RatingEq r)
      else None
  end.

Definition truthy_str (s : option string) : option string :=
  match s with
  | Some v => if str_truthy v then Some v else None
  | None => None
  end.

Definition MovieSearchResponse_of (movie : Movie) : option MovieSearchResponse :=
  match MovieCreate_of movie with
  | Some mc =>
      Some {| msr_movie_id := str_oid (m_id movie);
              msr_title := mc_title mc; msr_genre := mc_genre mc;
              msr_rating := mc_rating mc; msr_duration := mc_duration mc;
              msr_release_date := mc_release_date mc |}
  | None => None
  end.

Fixpoint all_some {A B} (f : A -> option B) (l : list A) : option (list B) :=
  match l with
  | [] => Some []
  | x :: r =>
      match f x with
      | None => None
      | Some y =>
          match all_some f r with
          | None => None
          | Some ys => Some (y :: ys)
          end
      end
  end.

(** GET /api/movies *)
Definition search_movies (title genre : option string) (rating : option float)
    (current_user : User) : Handler Content :=
  let query :=
    {| q_title := truthy_str title;
       q_genre := truthy_str genre;
       q_rating := rating_query rating |} in
  movies <- await (Movies_find query 100) ;;
  match all_some MovieSearchResponse_of movies with
  | Some l => ret (JMovies l)
  | None => raise (Unhandled "ValidationError")
  end.

(** The loop of [search_shows]. *)
Fixpoint shows_with_titles (shows : list Show) : Handler (list ShowResponse) :=
  match shows with
  | [] => ret []
  | show :: rest =>
      oid <- to_ObjectId (sh_movie_id show) ;;
      movie <- await (Movies_find_one oid) ;;
      let movie_title :=
        match movie with
        | Some m => m_title m
        | None => None
        end in
      tail <- shows_with_titles rest ;;
      ret ({| sr_show_id := str_oid (sh_id show);
              sr_movie_id := sh_movie_id show;
              sr_screen_id := sh_screen_id show;
              sr_show_time := sh_show_time show;
              sr_movie_title := movie_title |} :: tail)
  end.

(** GET /api/shows *)
Definition search_shows (movie_id : option string) (show_time : option date)
    (current_user : User) : Handler Content :=
  let query :=
    {| sq_movie_id := truthy_str movie_id;
       sq_show_time :=
         match show_time with
         | Some d => Some (start_of_day d, end_of_day d)
         | None => None
         end |} in
  shows <- await (Shows_find query 100) ;;
  l <- shows_with_titles shows ;;
  ret (JShows l).

(** POST /api/bookings *)
Definition create_booking (booking : BookingCreate) (current_user : User)
  : Handler Content :=
  let booking_dict :=
    {| bc_show_id := bc_show_id booking;
       bc_user_id := str_oid (u_id current_user);
       bc_seat_number := bc_seat_number booking |} in
  result <- await (Bookings_find_one_and_update
                     (bc_show_id booking_dict) (bc_seat_number booking_dict)
                     booking_dict) ;;
  match result with
  | Some _ => raise (HTTPException 400 "Seat already booked" [])
  | None => ret (JMessage "Booking successful")
  end.

(** ** The routes *)

Record Response := {
  status_code : Z;
  headers : list (string * string);
  content : Content
}.

(** A request, after FastAPI has parsed its path, query and body; the
    [Authorization] header is kept as sent. *)
Inductive Request :=
| POST_signup (user : UserCreate)
| POST_token (username password : string)
| POST_cinemahalls (authorization : option string) (hall : CinemaHallCreate)
| POST_screens (authorization : option string) (screen : ScreenCreate)
| POST_shows (authorization : option string) (show : ShowCreate)
| POST_movies (authorization : option string) (movie : MovieCreate)
| GET_movie (authorization : option string) (id : string)
| PUT_movie (authorization : option string) (id : string) (movie : MovieUpdate)
| DELETE_movie (authorization : option string) (id : string)
| GET_movies (authorization : option string)
    (title genre : option string) (rating : option float)
| GET_shows (authorization : option string)
    (movie_id : option string) (show_time : option date)
| POST_bookings (authorization : option string) (booking : BookingCreate).

(** [Depends(get_current_user)], itself on [Depends(oauth2_scheme)]. *)
Definition current_user_dependency (rt : Runtime)
    (authorization : option string) : Handler User :=
  token <- lift (oauth2_scheme authorization) ;;
  get_current_user (utcnow rt) token.

(** [Depends(is_admin_user)] *)
Definition admin_dependency (rt : Runtime)
    (authorization : option string) : Handler User :=
  user <- current_user_dependency rt authorization ;;
  lift (is_admin_user user).

Definition exn_response (e : Exn) : Response :=
  match e with
  | HTTPException s d h =>
      {| status_code := s; headers := h; content := JDetail d |}
  | Unhandled _ =>
      {| status_code := 500; headers := [];
         content := PlainText "Internal Server Error" |}
  end.

Definition respond (h : Handler Content) : Prog Response :=
  bind h (fun r =>
    Ret match r with
        | inl e => exn_response e
        | inr c => {| status_code := 200; headers := []; content := c |}
        end).

(** The handler of a request with its dependencies in front.  A route
    that names both [is_admin_user] and [get_current_user] resolves the
    user once. *)
Definition endpoint (rt : Runtime) (req : Request) : Handler Content :=
  match req with
  | POST_signup user => create_user rt user
  | POST_token username password =>
      login_for_access_token rt username password
  | POST_cinemahalls a hall =>
      _ <- admin_dependency rt a ;; create_cinema_hall hall
  | POST_screens a screen =>
      _ <- admin_dependency rt a ;; create_screen screen
  | POST_shows a show =>
      _ <- admin_dependency rt a ;; create_show show
  | POST_movies a movie =>
      u <- admin_dependency rt a ;; create_movie movie u
  | GET_movie a id =>
      u <- current_user_dependency rt a ;; read_movie id u
  | PUT_movie a id movie =>
      u <- admin_dependency rt a ;; update_movie id movie u
  | DELETE_movie a id =>
      u <- admin_dependency rt a ;; delete_movie id u
  | GET_movies a title genre rating =>
      u <- current_user_dependency rt a ;; search_movies title genre rating u
  | GET_shows a movie_id show_time =>
      u <- current_user_dependency rt a ;; search_shows movie_id show_time u
  | POST_bookings a booking =>
      u <- current_user_dependency rt a ;; create_booking booking u
  end.

Definition app (rt : Runtime) (req : Request) : Prog Response :=
  respond (endpoint rt req).

(** ** Requests in flight

    The server holds any number of requests, each suspended at its next
    store call.  A step admits a request, lets one request make its next
    call on the store, or drops a request (answered, or abandoned by the
    client). *)
Record System := {
  store : Database;
  inflight : list (Prog Response)
}.

Inductive step : System -> System -> Prop :=
| step_arrive db pool rt req :
    step {| store := db; inflight := pool |}
         {| store := db; inflight := pool ++ [app rt req] |}
| step_call db pool1 pool2 X (op : dbop X) k :
    step {| store := db; inflight := pool1 ++ Do op k :: pool2 |}
         {| store := fst (exec op db);
            inflight := pool1 ++ k (snd (exec op db)) :: pool2 |}
| step_leave db pool1 pool2 p :
    step {| store := db; inflight := pool1 ++ p :: pool2 |}
         {| store := db; inflight := pool1 ++ pool2 |}.

Inductive steps : System -> System -> Prop :=
| steps_refl s : steps s s
| steps_snoc s t u : steps s t -> step t u -> steps s u.

Definition initial : System := {| store := empty_db; inflight := [] |}.

Definition reachable (s : System) : Prop := steps initial s.

(** A schedule names the steps one after the other; [Call i] lets the
    [i]-th request in flight make its next call, [Leave i] drops it. *)
Inductive Action :=
| Arrive (rt : Runtime) (req : Request)
| Call (i : nat)
| Leave (i : nat).

Definition act (s : System) (a : Action) : System :=
  match a with
  | Arrive rt req =>
      {| store := store s; inflight := inflight s ++ [app rt req] |}
  | Call i =>
      match nth_error (inflight s) i with
      | Some (Do op k) =>
          {| store := fst (exec op (store s));
             inflight := firstn i (inflight s) ++
                         k (snd (exec op (store s))) :: skipn (S i) (inflight s) |}
      | _ => s
      end
  | Leave i =>
      match nth_error (inflight s) i with
      | Some _ =>
          {| store := store s;
             inflight := firstn i (inflight s) ++ skipn (S i) (inflight s) |}
      | None => s
      end
  end.

Definition play (s : System) (schedule : list Action) : System :=
  fold_left act schedule s.

(** The bookings of one seat of one show. *)
Definition bookings_of (show_id : string) (seat_number : Z) (db : Database)
  : list Booking :=
  filter (booking_matches show_id seat_number) (bookings_collection db).


(** The requests that need the admin flag. *)
Definition admin_endpoint (req : Request) : bool :=
  match req with
  | POST_cinemahalls _ _ | POST_screens _ _ | POST_shows _ _
  | POST_movies _ _ | PUT_movie _ _ _ | DELETE_movie _ _ => true
  | _ => false
  end.

(** The [Authorization] header of a request to a route that depends on
    [get_current_user]. *)
Definition authorization_of (req : Request) : option (option string) :=
  match req with
  | POST_signup _ | POST_token _ _ => None
  | POST_cinemahalls a _ | POST_screens a _ | POST_shows a _
  | POST_movies a _ | GET_movie a _ | PUT_movie a _ _ | DELETE_movie a _
  | GET_movies a _ _ _ | GET_shows a _ _ | POST_bookings a _ => Some a
  end.

End Program.

Arguments exec E {X} op db.
Arguments run E {A} p db.

(** ** An environment to run the model on

    A stand-in for the libraries: the hash is the salt and the password
    side by side, a token spells out the algorithm, the key and the
    claims, and the regular expression is a plain substring.  It serves
    to evaluate the model on concrete requests. *)

Fixpoint split_on (sep : ascii) (s : string) : string * string :=
  match s with
  | EmptyString => (EmptyString, EmptyString)
  | String c r =>
      if Ascii.eqb c sep then (EmptyString, r)
      else let (h, t) := split_on sep r in (String c h, t)
  end.

Definition example_hash (salt password : string) : string :=
  salt ++ "$" ++ password.

Definition example_verify (password hashed : string) : bool :=
  String.eqb (snd (split_on "$"%char hashed)) password.

Definition example_sign (c : Claims) (key algorithm : string) : string :=
  algorithm ++ "." ++ key ++ "." ++
  match claim_exp c with
  | None => "-"
  | Some e => hex_be 16 (Z.to_N e)
  end ++ "." ++
  match claim_sub c with
  | None => ""
  | Some s => "=" ++ s
  end.

Definition example_verify_token (token key : string) (algorithms : list string)
  : option Claims :=
  let (alg, r1) := split_on "."%char token in
  let (k, r2) := split_on "."%char r1 in
  let (e, s) := split_on "."%char r2 in
  if existsb (String.eqb alg) algorithms && String.eqb k key then
    match (if String.eqb e "-" then Some None
           else option_map (fun n => Some (Z.of_N n)) (parse_hex e 0%N)) with
    | None => None
    | Some exp =>
        Some {| claim_sub :=
                  match s with
                  | String "="%char r => Some r
                  | _ => None
                  end;
                claim_exp := exp |}
    end
  else None.

Fixpoint contains (pattern s : string) : bool :=
  String.prefix pattern s ||
  match s with
  | EmptyString => false
  | String _ r => contains pattern r
  end.

Definition example_env : Env :=
  {| SECRET_KEY := "s3cr3t";
     ALGORITHM := "HS256";
     ACCESS_TOKEN_EXPIRE_MINUTES := 30;
     pwd_hash := example_hash;
     pwd_verify := example_verify;
     jws_sign := example_sign;
     jws_verify := example_verify_token;
     regex_search_i := fun p s => contains (lower p) (lower s) |}.

Definition example_rt : Runtime :=
  {| utcnow := 1700000000200000; gensalt := "salt" |}.

Definition alice : UserCreate :=
  {| uc_username := "alice"; uc_email := "alice@example.com";
     uc_password := "wonderland"; uc_phone := "555-0100";
     uc_is_admin := Some false |}.

Definition root : UserCreate :=
  {| uc_username := "root"; uc_email := "root@example.com";
     uc_password := "toor"; uc_phone := "555-0199";
     uc_is_admin := Some true |}.

(** The database after [alice] and then [root] have signed up. *)
Definition example_db : Database :=
  fst (run example_env (app example_env example_rt (POST_signup root))
        (fst (run example_env (app example_env example_rt (POST_signup alice))
                empty_db))).

(** The header carrying a token for [email], issued at [example_rt]. *)
Definition bearer_for (email : string) : option string :=
  Some ("Bearer " ++
        create_access_token example_env (utcnow example_rt)
          {| claim_sub := Some email; claim_exp := None |}
          (Some (timedelta_minutes 30))).

Definition seat5 : BookingCreate :=
  {| bc_show_id := "show-1"; bc_user_id := "anyone"; bc_seat_number := 5 |}.

(** ** Vocabulary of the statements *)

(** [db'] holds the bookings of [db], in the same order, and maybe more
    after them. *)
Definition extends (db db' : Database) : Prop :=
  exists more, bookings_collection db' = (bookings_collection db ++ more)%list.



(** The users stored under one email. *)
Definition users_with_email (email : string) (db : Database) : list User :=
  filter (fun u => String.eqb (u_email u) email) (users_collection db).

Definition emails_unique (db : Database) : Prop :=
  forall email, (List.length (users_with_email email db) <= 1)%nat.

(** The record [create_user] stores for a signup. *)
Definition account_of (E : Env) (rt : Runtime) (oid : ObjectId)
    (user : UserCreate) : User :=
  {| u_id := oid; u_username := uc_username user; u_email := uc_email user;
     u_password := get_password_hash E rt (uc_password user);
     u_phone := uc_phone user; u_is_admin := uc_is_admin user |}.

(** The lifetime a token gets from [expires_delta]. *)
Definition lifetime (expires_delta : option timedelta) : timedelta :=
  match expires_delta with
  | Some d => if d =? 0 then timedelta_minutes 15 else d
  | None => timedelta_minutes 15
  end.

(** The claims [create_access_token] signs for [subject] at time [t]. *)
Definition issued_claims (subject : string) (expires_delta : option timedelta)
    (t : datetime) : Claims :=
  {| claim_sub := Some subject;
     claim_exp := Some (timegm (t + lifetime expires_delta)) |}.

(** ** Sample data *)

Definition alice_account : User := account_of example_env example_rt 0%N alice.
Definition root_account : User := account_of example_env example_rt 1%N root.

(** The same seat, asked for with another [user_id] in the body. *)
Definition seat5_again : BookingCreate :=
  {| bc_show_id := "show-1"; bc_user_id := "someone else"; bc_seat_number := 5 |}.

(** [example_db] once [alice] holds seat 5 of show-1. *)
Definition booked_db : Database :=
  fst (run example_env (create_booking seat5 alice_account) example_db).

(** Two users sign up, then both ask for the same seat; each request
    resolves its caller before either reaches the bookings. *)
Definition race_schedule : list Action :=
  [ Arrive example_rt (POST_signup alice); Call 0; Leave 0;
    Arrive example_rt (POST_signup root); Call 0; Leave 0;
    Arrive example_rt (POST_bookings (bearer_for "alice@example.com") seat5);
    Arrive example_rt (POST_bookings (bearer_for "root@example.com") seat5_again);
    Call 0; Call 1; Call 1; Call 0 ].

Definition race_state : System := play example_env initial race_schedule.

(** The same email signs up twice. *)
Definition twice_schedule : list Action :=
  [ Arrive example_rt (POST_signup alice); Call 0; Leave 0;
    Arrive example_rt (POST_signup alice); Call 0; Leave 0 ].

Definition twice_state : System := play example_env initial twice_schedule.

Definition hall : CinemaHallCreate :=
  {| hc_name := "Odeon"; hc_address := "1 Main St"; hc_phone := "555-0142" |}.

(** 4.5 and 3.5 as binary64 values. *)
Definition four_and_a_half : float := S754_finite false 5066549580791808 (-50).
Definition three_and_a_half : float := S754_finite false 7881299347898368 (-51).

Definition movie_rated (r : float) : Movie :=
  {| m_id := 7%N; m_title := Some "Metropolis"; m_genre := Some "sci-fi";
     m_rating := Some r; m_duration := Some 153; m_release_date := Some 0 |}.

(** ** Vocabulary of the further statements *)

(** What [login_for_access_token] answers when it refuses. *)
Definition login_refused : Response :=
  {| status_code := 401; headers := [("WWW-Authenticate", "Bearer")];
     content := JDetail "Incorrect username or password" |}.

(** What a caller reads when the token is refused. *)
Definition credentials_refused : Response :=
  {| status_code := 401; headers := [("WWW-Authenticate", "Bearer")];
     content := JDetail "Could not validate credentials" |}.

Definition internal_server_error : Response :=
  {| status_code := 500; headers := [];
     content := PlainText "Internal Server Error" |}.


Definition ok (c : Content) : Response :=
  {| status_code := 200; headers := []; content := c |}.

(** The token [login_for_access_token] hands out for [email] at [t]. *)
Definition login_token (E : Env) (t : datetime) (email : string) : string :=
  create_access_token E t {| claim_sub := Some email; claim_exp := None |}
    (Some (timedelta_minutes (ACCESS_TOKEN_EXPIRE_MINUTES E))).

(** The header a client sends with a token. *)
Definition bearer (token : string) : option string :=
  Some ("Bearer " ++ token).

(** The routes that only read: the three GETs and [POST /token]. *)
Definition reading_route (req : Request) : bool :=
  match req with
  | POST_token _ _ | GET_movie _ _ | GET_movies _ _ _ _ | GET_shows _ _ _ => true
  | _ => false
  end.

(** The shows an admin's [delete_movie id] leaves. *)
Definition shows_kept (id : string) (db : Database) : list Show :=
  filter (fun s => negb (String.eqb (sh_movie_id s) id)) (shows_collection db).

(** What BSON keeps as it is given: a datetime of whole milliseconds, an
    integer of 64 bits. *)
Definition bson_exact_datetime (d : datetime) : Prop := d mod 1000 = 0.
Definition bson_exact_int (z : Z) : Prop := - 2 ^ 63 <= z < 2 ^ 63.

Definition stored_as_given (movie : MovieCreate) : Prop :=
  bson_exact_datetime (mc_release_date movie)
  /\ bson_exact_int (mc_duration movie).

Definition update_stored_as_given (mu : MovieUpdate) : Prop :=
  match mu_release_date mu with
  | Some (Some d) => bson_exact_datetime d
  | _ => True
  end
  /\ match mu_duration mu with
     | Some (Some z) => bson_exact_int z
     | _ => True
     end.

(** The body of an update sets at least one field. *)
Definition is_set {A} (upd : option (option A)) : bool :=
  match upd with
  | Some _ => true
  | None => false
  end.

Definition sets_any (mu : MovieUpdate) : bool :=
  is_set (mu_title mu) || is_set (mu_genre mu) || is_set (mu_rating mu)
  || is_set (mu_duration mu) || is_set (mu_release_date mu).



(** The query [search_movies] builds from its parameters. *)
Definition movie_query (title genre : option string) (rating : option float)
  : MovieQuery :=
  {| q_title := truthy_str title;
     q_genre := truthy_str genre;
     q_rating := rating_query rating |}.

(** The query [search_shows] builds from its parameters. *)
Definition show_query (movie_id : option string) (show_time : option date)
  : ShowQuery :=
  {| sq_movie_id := truthy_str movie_id;
     sq_show_time :=
       match show_time with
       | Some d => Some (start_of_day d, end_of_day d)
       | None => None
       end |}.

(** A show with the title of its movie, as [search_shows] answers it. *)
Definition titled (db : Database) (show : Show) : ShowResponse :=
  {| sr_show_id := str_oid (sh_id show);
     sr_movie_id := sh_movie_id show;
     sr_screen_id := sh_screen_id show;
     sr_show_time := sh_show_time show;
     sr_movie_title :=
       match ObjectId_of_str (sh_movie_id show) with
       | Some oid =>
           match find (fun m => N.eqb (m_id m) oid) (movies_collection db) with
           | Some m => m_title m
           | None => None
           end
       | None => None
       end |}.

(** The [_id]s of the movies are pairwise distinct and were all drawn
    from the supply. *)
Definition movie_ids_fresh (db : Database) : Prop :=
  NoDup (map m_id (movies_collection db))
  /\ Forall (fun m => (m_id m < next_oid db)%N) (movies_collection db).

(** The movie a search entry shows. *)
Definition MovieCreate_of_entry (r : MovieSearchResponse) : MovieCreate :=
  {| mc_title := msr_title r; mc_genre := msr_genre r;
     mc_rating := msr_rating r; mc_duration := msr_duration r;
     mc_release_date := msr_release_date r |}.

(** [l'] is [l] with more documents after it. *)
Definition grown {A} (l l' : list A) : Prop :=
  exists more, l' = (l ++ more)%list.

(** Users, halls, screens and bookings only got documents appended. *)
Definition append_only (db db' : Database) : Prop :=
  grown (users_collection db) (users_collection db')
  /\ grown (cinema_halls_collection db) (cinema_halls_collection db')
  /\ grown (screens_collection db) (screens_collection db')
  /\ grown (bookings_collection db) (bookings_collection db').

(** ** More sample data *)

Definition metropolis : MovieCreate :=
  {| mc_title := "Metropolis"; mc_genre := "sci-fi";
     mc_rating := four_and_a_half; mc_duration := 153;
     mc_release_date := 0 |}.

(** The show of the first movie created on [example_db]. *)
Definition evening_show : ShowCreate :=
  {| shc_movie_id := "000000000000000000000002"; shc_screen_id := "screen-1";
     shc_show_time := 1700000000000000 |}.

Definition stray_show : ShowCreate :=
  {| shc_movie_id := "no such movie"; shc_screen_id := "screen-1";
     shc_show_time := 1700000000000000 |}.

Definition as_root : option string := bearer_for "root@example.com".
Definition as_alice : option string := bearer_for "alice@example.com".

(** [example_db] after [root] has created a movie and a show of it. *)
Definition catalogue_db : Database :=
  fst (run example_env (app example_env example_rt (POST_shows as_root evening_show))
        (fst (run example_env
                (app example_env example_rt (POST_movies as_root metropolis))
                example_db))).

Definition metropolis_doc : Movie :=
  {| m_id := 2%N; m_title := Some "Metropolis"; m_genre := Some "sci-fi";
     m_rating := Some four_and_a_half; m_duration := Some 153;
     m_release_date := Some 0 |}.

(** An update that renames, and one that nulls the title. *)
Definition rename : MovieUpdate :=
  {| mu_title := Some (Some "Metropolis (restored)"); mu_genre := None;
     mu_rating := None; mu_duration := None; mu_release_date := None |}.


Definition bob : UserCreate :=
  {| uc_username := "bob"; uc_email := "bob@example.com";
     uc_password := "builder"; uc_phone := "555-0123";
     uc_is_admin := None |}.

(** A second signup under the email of [alice]. *)
Definition mallory : UserCreate :=
  {| uc_username := "mallory"; uc_email := "alice@example.com";
     uc_password := "hunter2"; uc_phone := "555-0666";
     uc_is_admin := Some true |}.

(** [root] signs up and creates a movie, request after request. *)
Definition cinema_state : System :=
  play example_env initial
    [ Arrive example_rt (POST_signup root); Call 0; Leave 0;
      Arrive example_rt (POST_movies as_root metropolis); Call 0; Call 0 ].

Definition metropolis_entry (movie_id : string) : MovieSearchResponse :=
  {| msr_movie_id := movie_id;
     msr_title := "Metropolis"; msr_genre := "sci-fi";
     msr_rating := four_and_a_half; msr_duration := 153;
     msr_release_date := 0 |}.

(** [catalogue_db] once a show under a made-up movie id is stored. *)
Definition stray_db : Database :=
  fst (run example_env
         (app example_env example_rt (POST_shows as_root stray_show))
         catalogue_db).

(** ** The driver and the store, closer up

    Two things the handlers do not see.  The BSON codec of the driver
    refuses an integer that does not fit 64 bits: the call raises
    [OverflowError] before anything reaches the store.  And an upsert is
    a look-up followed, when nothing was found, by an insert; with no
    unique index on the collection ([database.py] declares none) the
    store lets the look-ups of several upserts come before their
    inserts. *)

Definition int64 (z : Z) : bool := (- 2 ^ 63 <=? z) && (z <? 2 ^ 63).

(** The documents of the call can be encoded. *)
Definition encodable {X} (op : dbop X) : bool :=
  match op with
  | Screens_insert_one d => int64 (sc_total_seats d)
  | Movies_insert_one d => int64 (mc_duration d)
  | Movies_update_one _ mu =>
      match mu_duration mu with
      | Some (Some z) => int64 z
      | _ => true
      end
  | Bookings_find_one_and_update _ seat_number d =>
      int64 seat_number && int64 (bc_seat_number d)
  | _ => true
  end.

(** A program run to its end through the codec; [None] is the
    [OverflowError] that ends it, with the store as the calls before it
    left it. *)
Fixpoint drive (E : Env) {A} (p : Prog A) (db : Database)
  : Database * option A :=
  match p with
  | Ret a => (db, Some a)
  | Do op k =>
      if encodable op
      then let (db', x) := exec E op db in drive E (k x) db'
      else (db, None)
  end.

(** A request served alone: an exception out of the driver is a 500. *)
Definition serve (E : Env) (rt : Runtime) (req : Request) (db : Database)
  : Database * Response :=
  match drive E (app E rt req) db with
  | (db', Some r) => (db', r)
  | (db', None) =>
      (db', {| status_code := 500; headers := [];
               content := PlainText "Internal Server Error" |})
  end.

(** Handlers served one after the other, each to its end. *)
Fixpoint drive_all (E : Env) {A} (ps : list (Prog A)) (db : Database)
  : Database * list (option A) :=
  match ps with
  | [] => (db, [])
  | p :: rest =>
      let (db1, a) := drive E p db in
      let (db2, l) := drive_all E rest db1 in
      (db2, a :: l)
  end.

(** The insert of an upsert on the bookings. *)
Definition insert_booking (d : BookingCreate) (db : Database) : Database :=
  bump_oid (set_bookings db (bookings_collection db ++
    [{| b_id := next_oid db; b_show_id := bc_show_id d;
        b_user_id := bc_user_id d; b_seat_number := bc_seat_number d |}])).

(** A request in flight is at its next store call, or between the
    look-up of an upsert that found nothing and its insert. *)
Inductive Task :=
| Ready (p : Prog Response)
| Inserting (d : BookingCreate) (k : option Booking -> Prog Response).

Record Server := {
  disk : Database;
  tasks : list Task
}.

(** One task takes its next step on the store. *)
Definition advance (E : Env) (db : Database) (t : Task) : Database * Task :=
  match t with
  | Ready (Ret r) => (db, t)
  | Ready (Do op k) =>
      if encodable op then
        match op in dbop X return (X -> Prog Response) -> Database * Task with
        | Bookings_find_one_and_update show_id seat_number d =>
            fun k =>
              match find (booking_matches show_id seat_number)
                         (bookings_collection db) with
              | Some before => (db, Ready (k (Some before)))
              | None => (db, Inserting d k)
              end
        | op' => fun k => (fst (exec E op' db), Ready (k (snd (exec E op' db))))
        end k
      else
        (db, Ready (Ret {| status_code := 500; headers := [];
                           content := PlainText "Internal Server Error" |}))
  | Inserting d k => (insert_booking d db, Ready (k None))
  end.

Definition act_split (E : Env) (s : Server) (a : Action) : Server :=
  match a with
  | Arrive rt req =>
      {| disk := disk s; tasks := tasks s ++ [Ready (app E rt req)] |}
  | Call i =>
      match nth_error (tasks s) i with
      | Some t =>
          {| disk := fst (advance E (disk s) t);
             tasks := firstn i (tasks s) ++
                      snd (advance E (disk s) t) :: skipn (S i) (tasks s) |}
      | None => s
      end
  | Leave i =>
      match nth_error (tasks s) i with
      | Some _ =>
          {| disk := disk s;
             tasks := firstn i (tasks s) ++ skipn (S i) (tasks s) |}
      | None => s
      end
  end.

Definition play_split (E : Env) (s : Server) (schedule : list Action) : Server :=
  fold_left (act_split E) schedule s.


(** [bson.ObjectId(s)] raises [InvalidId] for certain: [s] has not 24
    characters, or one of them is neither a hexadecimal digit nor a
    blank ([bytes.fromhex] skips blanks). *)
Definition blank (c : ascii) : bool :=
  let n := N_of_ascii c in
  (n =? 32)%N || ((9 <=? n) && (n <=? 13))%N.

Fixpoint has_foreign_char (s : string) : bool :=
  match s with
  | EmptyString => false
  | String c r =>
      match hex_value c with
      | Some _ => has_foreign_char r
      | None => negb (blank c) || has_foreign_char r
      end
  end.

Definition surely_invalid (s : string) : bool :=
  negb (Nat.eqb (String.length s) 24) || has_foreign_char s.

(** A show that is not in the last millisecond of its day: the store
    keeps dates in whole milliseconds, and the day's upper bound
    23:59:59.999999 reaches it as 23:59:59.999. *)
Definition before_last_ms (s : Show) : Prop :=
  sh_show_time s mod day_us < day_us - 1000.

(** A seat number the codec refuses. *)
Definition seat_far_out : BookingCreate :=
  {| bc_show_id := "show-1"; bc_user_id := "anyone";
     bc_seat_number := 9223372036854775808 |}.



(** [example_db] after [mallory] has signed up under the email of
    [alice], asking for [is_admin]. *)
Definition mallory_db : Database :=
  fst (run example_env (app example_env example_rt (POST_signup mallory))
         example_db).

(** * Properties *)

(** ** Lists of documents *)

Lemma find_none_filter {A} (p : A -> bool) (l : list A) :
  find p l = None <-> filter p l = [].
Proof.
  induction l as [|x l IH]; simpl.
  - tauto.
  - destruct (p x); [split; discriminate | exact IH].
Qed.

Lemma find_app_some {A} (p : A -> bool) (l l' : list A) (x : A) :
  find p l = Some x -> find p (l ++ l') = Some x.
Proof.
  induction l as [|y l IH]; simpl; [discriminate|].
  destruct (p y); auto.
Qed.

Lemma find_app_none {A} (p : A -> bool) (l l' : list A) :
  find p l = None -> find p (l ++ l') = find p l'.
Proof.
  induction l as [|y l IH]; simpl; [reflexivity|].
  destruct (p y); [discriminate | exact IH].
Qed.

Lemma booking_matches_spec sid seat b :
  booking_matches sid seat b = true <->
  b_show_id b = sid /\ b_seat_number b = seat.
Proof.
  unfold booking_matches.
  rewrite andb_true_iff, String.eqb_eq, Z.eqb_eq. tauto.
Qed.

(** ** Running programs *)

Section Verification.

Variable E : Env.

Lemma run_bind {A B} (p : Prog A) (f : A -> Prog B) db :
  run E (bind p f) db = run E (f (snd (run E p db))) (fst (run E p db)).
Proof.
  revert db. induction p as [a | X op k IH]; intros db; simpl.
  - reflexivity.
  - destruct (exec E op db) as [db' x]. apply IH.
Qed.

Lemma run_hbind {A B} (p : Handler A) (f : A -> Handler B) db :
  run E (hbind p f) db =
  match snd (run E p db) with
  | inl e => (fst (run E p db), inl e)
  | inr a => run E (f a) (fst (run E p db))
  end.
Proof.
  unfold hbind. rewrite run_bind.
  destruct (snd (run E p db)); reflexivity.
Qed.

Lemma run_respond (h : Handler Content) db :
  run E (respond h) db =
  (fst (run E h db),
   match snd (run E h db) with
   | inl e => exn_response e
   | inr c => {| status_code := 200; headers := []; content := c |}
   end).
Proof. unfold respond. rewrite run_bind. reflexivity. Qed.

(** The outcome of [create_booking] on any store. *)
Lemma run_create_booking booking user db :
  run E (create_booking booking user) db =
  match find (booking_matches (bc_show_id booking) (bc_seat_number booking))
             (bookings_collection db) with
  | Some _ => (db, inl (HTTPException 400 "Seat already booked" []))
  | None =>
      (bump_oid (set_bookings db (bookings_collection db ++
         [{| b_id := next_oid db; b_show_id := bc_show_id booking;
             b_user_id := str_oid (u_id user);
             b_seat_number := bc_seat_number booking |}])),
       inr (JMessage "Booking successful"))
  end.
Proof.
  unfold create_booking. cbn.
  destruct (find _ (bookings_collection db)); reflexivity.
Qed.

(** ** The bookings only grow *)

Lemma extends_refl db : extends db db.
Proof. exists []. now rewrite app_nil_r. Qed.

Lemma extends_trans a b c : extends a b -> extends b c -> extends a c.
Proof.
  intros [l1 H1] [l2 H2]. exists (l1 ++ l2)%list.
  now rewrite H2, H1, app_assoc.
Qed.

Lemma exec_extends {X} (op : dbop X) db : extends db (fst (exec E op db)).
Proof.
  unfold extends.
  destruct op; simpl;
    try (exists []; now rewrite app_nil_r).
  - destruct (update_first _ _ _); simpl. exists []; now rewrite app_nil_r.
  - destruct (delete_first _ _); simpl. exists []; now rewrite app_nil_r.
  - destruct (find _ _); simpl.
    + exists []; now rewrite app_nil_r.
    + eexists. reflexivity.
Qed.

Lemma step_extends s t : step E s t -> extends (store s) (store t).
Proof.
  destruct 1; simpl; try apply extends_refl. apply exec_extends.
Qed.

Lemma steps_extends s t : steps E s t -> extends (store s) (store t).
Proof.
  induction 1 as [|s t u _ IH Hstep].
  - apply extends_refl.
  - eapply extends_trans; [exact IH | now apply step_extends].
Qed.

Lemma extends_find sid seat db db' b :
  extends db db' ->
  find (booking_matches sid seat) (bookings_collection db) = Some b ->
  find (booking_matches sid seat) (bookings_collection db') = Some b.
Proof.
  intros [more ->] H. now apply find_app_some.
Qed.

(** ** Every program of the server is keyed *)













(** ** Schedules are runs of the step relation *)

Lemma steps_trans s t u : steps E s t -> steps E t u -> steps E s u.
Proof.
  intros Hst Htu. induction Htu as [|t u v _ IH Hstep]; [exact Hst|].
  eapply steps_snoc; [apply IH; exact Hst | exact Hstep].
Qed.

Lemma nth_error_cut {A} (l : list A) i x :
  nth_error l i = Some x -> l = (firstn i l ++ x :: skipn (S i) l)%list.
Proof.
  revert i. induction l as [|y l IH]; intros [|i]; simpl; try discriminate.
  - now intros [= ->].
  - intros H. f_equal. now apply IH.
Qed.

Lemma act_steps s a : steps E s (act E s a).
Proof.
  destruct s as [db pool]. destruct a as [rt req | i | i]; simpl.
  - eapply steps_snoc; [apply steps_refl | apply step_arrive].
  - destruct (nth_error pool i) as [[r | X op k]|] eqn:Hi; try apply steps_refl.
    eapply steps_snoc; [apply steps_refl|].
    rewrite (nth_error_cut _ _ _ Hi) at 1. apply step_call.
  - destruct (nth_error pool i) as [p|] eqn:Hi; try apply steps_refl.
    eapply steps_snoc; [apply steps_refl|].
    rewrite (nth_error_cut _ _ _ Hi) at 1. apply step_leave.
Qed.

Lemma play_steps schedule s : steps E s (play E s schedule).
Proof.
  revert s. induction schedule as [|a l IH]; intros s; simpl.
  - apply steps_refl.
  - eapply steps_trans; [apply act_steps | apply IH].
Qed.

(** ** One booking per seat *)







(** ** Resolving the caller reads the store and leaves it as it is *)

Lemma run_get_current_user_store now token db :
  fst (run E (get_current_user E now token) db) = db.
Proof.
  unfold get_current_user.
  destruct (jwt_decode _ _ _ _ _) as [|payload]; [reflexivity|].
  destruct (claim_sub payload); [|reflexivity].
  cbn. destruct (find _ _); reflexivity.
Qed.

Lemma run_current_user_dependency_store rt a db :
  fst (run E (current_user_dependency E rt a) db) = db.
Proof.
  unfold current_user_dependency. rewrite run_hbind. cbn.
  destruct (oauth2_scheme a); [reflexivity|].
  apply run_get_current_user_store.
Qed.

Lemma run_admin_dependency_store rt a db :
  fst (run E (admin_dependency E rt a) db) = db.
Proof.
  unfold admin_dependency. rewrite run_hbind.
  rewrite run_current_user_dependency_store.
  destruct (snd _); [reflexivity|]. reflexivity.
Qed.

(** A route behind [get_current_user]: the dependency first, then the
    handler on the store the dependency left. *)
Lemma run_behind_current_user rt a (h : User -> Handler Content) db :
  run E (respond (u <- current_user_dependency E rt a ;; h u)%handler) db =
  match snd (run E (current_user_dependency E rt a) db) with
  | inl e => (db, exn_response e)
  | inr u => run E (respond (h u)) db
  end.
Proof.
  rewrite run_respond, run_hbind, run_current_user_dependency_store.
  destruct (snd (run E (current_user_dependency E rt a) db)).
  - reflexivity.
  - now rewrite run_respond.
Qed.

(** ** Through the codec, and with the two halves of an upsert apart *)

Lemma int64_spec z : int64 z = true <-> bson_exact_int z.
Proof.
  unfold int64, bson_exact_int.
  rewrite andb_true_iff, Z.leb_le, Z.ltb_lt. tauto.
Qed.



(** An upsert whose insert follows its look-up with nothing in between
    is the one step of [exec]. *)
Lemma advance_twice_is_exec show_id seat_number d k db :
  encodable (Bookings_find_one_and_update show_id seat_number d) = true ->
  let op := Bookings_find_one_and_update show_id seat_number d in
  let first := advance E db (Ready (Do op k)) in
  match snd first with
  | Inserting _ _ =>
      advance E (fst first) (snd first)
      = (fst (exec E op db), Ready (k (snd (exec E op db))))
  | _ => first = (fst (exec E op db), Ready (k (snd (exec E op db))))
  end.
Proof.
  intros Henc op first. unfold first, op, advance. rewrite Henc. cbn [exec].
  destruct (find _ _); reflexivity.
Qed.

Lemma advance_extends db t : extends db (fst (advance E db t)).
Proof.
  destruct t as [[r | X op k] | d k]; cbn [advance].
  - apply extends_refl.
  - destruct (encodable op); [|apply extends_refl].
    destruct op; cbn [fst]; try apply exec_extends.
    destruct (find _ _); apply extends_refl.
  - unfold insert_booking. cbn. eexists. reflexivity.
Qed.

Lemma play_split_extends schedule s :
  extends (disk s) (disk (play_split E s schedule)).
Proof.
  revert s. induction schedule as [|a l IH]; intros s; [apply extends_refl|].
  cbn [play_split fold_left]. eapply extends_trans; [|apply IH].
  destruct a as [rt req | i | i]; cbn [act_split].
  - apply extends_refl.
  - destruct (nth_error (tasks s) i); [apply advance_extends | apply extends_refl].
  - destruct (nth_error (tasks s) i); apply extends_refl.
Qed.

Lemma free_pair_find sid seat db :
  (forall b, In b (bookings_collection db) ->
             ~ (b_show_id b = sid /\ b_seat_number b = seat)) ->
  find (booking_matches sid seat) (bookings_collection db) = None.
Proof.
  intros Hfree. destruct (find _ _) as [b|] eqn:Hf; [|reflexivity].
  apply find_some in Hf. destruct Hf as [Hin Hm].
  apply booking_matches_spec in Hm. now apply Hfree in Hin.
Qed.

Lemma drive_create_booking booking user db :
  int64 (bc_seat_number booking) = true ->
  drive E (create_booking booking user) db =
  match find (booking_matches (bc_show_id booking) (bc_seat_number booking))
             (bookings_collection db) with
  | Some _ => (db, Some (inl (HTTPException 400 "Seat already booked" [])))
  | None =>
      (bump_oid (set_bookings db (bookings_collection db ++
         [{| b_id := next_oid db; b_show_id := bc_show_id booking;
             b_user_id := str_oid (u_id user);
             b_seat_number := bc_seat_number booking |}])),
       Some (inr (JMessage "Booking successful")))
  end.
Proof.
  intros Hseat. unfold create_booking. cbn. rewrite Hseat. cbn.
  destruct (find _ (bookings_collection db)); reflexivity.
Qed.


(** C2 (as the code has it).  On a store with no booking for the seat,
    and for a seat number of 64 bits, [create_booking] answers "Booking
    successful" and appends the record; from then on, in every store
    that still holds the bookings made so far -- all the server reaches,
    whatever it does in between and however the upserts overlap --
    every [create_booking] for the same show and seat, by any user,
    raises 400 "Seat already booked" and changes nothing. *)
Theorem reserve_once_then_taken booking user db :
  int64 (bc_seat_number booking) = true ->
  (forall b, In b (bookings_collection db) ->
             ~ (b_show_id b = bc_show_id booking
                /\ b_seat_number b = bc_seat_number booking)) ->
  let db1 := fst (drive E (create_booking booking user) db) in
  snd (drive E (create_booking booking user) db)
    = Some (inr (JMessage "Booking successful"))
  /\ bookings_collection db1
     = (bookings_collection db ++
         [{| b_id := next_oid db; b_show_id := bc_show_id booking;
             b_user_id := str_oid (u_id user);
             b_seat_number := bc_seat_number booking |}])%list
  /\ (forall db' booking' user',
        extends db1 db' ->
        bc_show_id booking' = bc_show_id booking ->
        bc_seat_number booking' = bc_seat_number booking ->
        drive E (create_booking booking' user') db'
        = (db', Some (inl (HTTPException 400 "Seat already booked" []))))
  /\ (forall pool s,
        steps E {| store := db1; inflight := pool |} s -> extends db1 (store s))
  /\ (forall waiting schedule,
        extends db1
          (disk (play_split E {| disk := db1; tasks := waiting |} schedule))).
Proof.
  intros Hseat Hfree db1. unfold db1.
  pose proof (free_pair_find _ _ _ Hfree) as Hnone.
  rewrite (drive_create_booking booking user db Hseat), Hnone. cbn [fst snd].
  split; [reflexivity|]. split; [reflexivity|]. split; [|split].
  - intros db' booking' user' Hext Hshow Hseat'.
    rewrite drive_create_booking by (now rewrite Hseat').
    rewrite Hshow, Hseat'.
    set (r := {| b_id := next_oid db; b_show_id := bc_show_id booking;
                 b_user_id := str_oid (u_id user);
                 b_seat_number := bc_seat_number booking |}).
    assert (Hr : find (booking_matches (bc_show_id booking)
                         (bc_seat_number booking))
                   (bookings_collection db ++ [r]) = Some r).
    { rewrite (find_app_none _ _ _ Hnone). cbn [find].
      unfold booking_matches. cbn. now rewrite String.eqb_refl, Z.eqb_refl. }
    assert (Hs : find (booking_matches (bc_show_id booking)
                         (bc_seat_number booking))
                   (bookings_collection db') = Some r).
    { eapply extends_find; [exact Hext|]. exact Hr. }
    now rewrite Hs.
  - intros pool s Hsteps. apply steps_extends in Hsteps. exact Hsteps.
  - intros waiting schedule.
    apply (play_split_extends schedule
             {| disk := bump_oid (set_bookings db (bookings_collection db ++
                  [{| b_id := next_oid db; b_show_id := bc_show_id booking;
                      b_user_id := str_oid (u_id user);
                      b_seat_number := bc_seat_number booking |}]));
                tasks := waiting |}).
Qed.

(** C3. When the seat already has a booking, [create_booking] raises
    [HTTPException(400, "Seat already booked")]; the store afterwards is
    the store before, and the caller behind a valid token reads status
    400 with that detail. *)
Theorem seat_taken_changes_nothing booking user db :
  bookings_of (bc_show_id booking) (bc_seat_number booking) db <> [] ->
  run E (create_booking booking user) db
    = (db, inl (HTTPException 400 "Seat already booked" []))
  /\ forall rt a,
       snd (run E (current_user_dependency E rt a) db) = inr user ->
       run E (app E rt (POST_bookings a booking)) db
       = (db, {| status_code := 400; headers := [];
                 content := JDetail "Seat already booked" |}).
Proof.
  intros Htaken.
  assert (H : run E (create_booking booking user) db
              = (db, inl (HTTPException 400 "Seat already booked" []))).
  { rewrite run_create_booking.
    destruct (find _ _) eqn:Hfind; [reflexivity|].
    apply find_none_filter in Hfind. contradiction. }
  split; [exact H|].
  intros rt a Huser. unfold app. cbn [endpoint].
  rewrite run_behind_current_user, Huser, run_respond, H. reflexivity.
Qed.

(** ** What the dependencies answer *)

Lemma current_user_dependency_outcome rt a db :
  snd (run E (current_user_dependency E rt a) db) =
  match oauth2_scheme a with
  | inl e => inl e
  | inr token =>
      match jwt_decode E (utcnow rt) token (SECRET_KEY E) [ALGORITHM E] with
      | inl _ => inl credentials_exception
      | inr payload =>
          match claim_sub payload with
          | None => inl credentials_exception
          | Some email =>
              match find (fun u => String.eqb (u_email u) email)
                         (users_collection db) with
              | None => inl credentials_exception
              | Some u => inr u
              end
          end
      end
  end.
Proof.
  unfold current_user_dependency. rewrite run_hbind. cbn.
  destruct (oauth2_scheme a) as [e|token]; [reflexivity|].
  unfold get_current_user.
  destruct (jwt_decode _ _ _ _ _) as [|payload]; [reflexivity|].
  destruct (claim_sub payload); [|reflexivity].
  cbn. destruct (find _ _); reflexivity.
Qed.

Lemma oauth2_scheme_failure a e :
  oauth2_scheme a = inl e ->
  e = HTTPException 401 "Not authenticated" bearer_challenge.
Proof.
  unfold oauth2_scheme.
  destruct (get_authorization_scheme_param a) as [scheme param].
  destruct (_ || _); congruence.
Qed.

Lemma current_user_dependency_failure rt a db e :
  snd (run E (current_user_dependency E rt a) db) = inl e ->
  e = match oauth2_scheme a with
      | inl _ => HTTPException 401 "Not authenticated" bearer_challenge
      | inr _ => credentials_exception
      end.
Proof.
  rewrite current_user_dependency_outcome.
  destruct (oauth2_scheme a) as [e0|token] eqn:Hscheme.
  - intros [= <-]. now apply oauth2_scheme_failure with a.
  - destruct (jwt_decode _ _ _ _ _) as [|payload]; [congruence|].
    destruct (claim_sub payload); [|congruence].
    destruct (find _ _); congruence.
Qed.

Lemma admin_dependency_outcome rt a db :
  run E (admin_dependency E rt a) db =
  (db, match snd (run E (current_user_dependency E rt a) db) with
       | inl e => inl e
       | inr u => is_admin_user u
       end).
Proof.
  unfold admin_dependency.
  rewrite run_hbind, run_current_user_dependency_store.
  destruct (snd _); reflexivity.
Qed.

(** A route behind [is_admin_user]. *)
Lemma run_behind_admin rt a (h : User -> Handler Content) db :
  run E (respond (u <- admin_dependency E rt a ;; h u)%handler) db =
  match snd (run E (current_user_dependency E rt a) db) with
  | inl e => (db, exn_response e)
  | inr u =>
      match is_admin_user u with
      | inl e => (db, exn_response e)
      | inr u' => run E (respond (h u')) db
      end
  end.
Proof.
  rewrite run_respond, run_hbind, admin_dependency_outcome. cbn [fst snd].
  destruct (snd (run E (current_user_dependency E rt a) db)) as [e|u].
  - reflexivity.
  - destruct (is_admin_user u); [reflexivity|]. now rewrite run_respond.
Qed.

(** Every route that carries an [Authorization] header answers a caller
    it cannot resolve with the exception of the dependency, store
    untouched. *)
Lemma run_unresolved rt req a db e :
  authorization_of req = Some a ->
  snd (run E (current_user_dependency E rt a) db) = inl e ->
  run E (app E rt req) db = (db, exn_response e).
Proof.
  intros Ha He.
  destruct req; simpl in Ha; try discriminate; injection Ha as ->;
    unfold app; cbn [endpoint];
    first [ rewrite run_behind_admin | rewrite run_behind_current_user ];
    now rewrite He.
Qed.

(** C4. The record of a successful booking carries the [_id] of the
    user the token resolved to; requests that differ in the body's
    [user_id] only are the same program, hence leave the same store and
    the same response whatever runs beside them. *)
Theorem booking_user_is_token_user rt a booking db :
  (forall booking',
     bc_show_id booking' = bc_show_id booking ->
     bc_seat_number booking' = bc_seat_number booking ->
     app E rt (POST_bookings a booking') = app E rt (POST_bookings a booking)
     /\ run E (app E rt (POST_bookings a booking')) db
        = run E (app E rt (POST_bookings a booking)) db)
  /\ (status_code (snd (run E (app E rt (POST_bookings a booking)) db)) = 200 ->
      exists u,
        snd (run E (current_user_dependency E rt a) db) = inr u
        /\ bookings_collection (fst (run E (app E rt (POST_bookings a booking)) db))
           = (bookings_collection db ++
               [{| b_id := next_oid db; b_show_id := bc_show_id booking;
                   b_user_id := str_oid (u_id u);
                   b_seat_number := bc_seat_number booking |}])%list).
Proof.
  split.
  - intros booking' Hshow Hseat.
    assert (Heq : app E rt (POST_bookings a booking')
                  = app E rt (POST_bookings a booking)).
    { destruct booking', booking. simpl in Hshow, Hseat. subst. reflexivity. }
    split; [exact Heq | now rewrite Heq].
  - unfold app. cbn [endpoint]. rewrite run_behind_current_user.
    destruct (snd (run E (current_user_dependency E rt a) db)) as [e|u] eqn:Hu.
    + apply current_user_dependency_failure in Hu. subst e.
      destruct (oauth2_scheme a); simpl; discriminate.
    + rewrite run_respond, run_create_booking.
      destruct (find _ _); simpl; [discriminate|].
      intros _. exists u. split; reflexivity.
Qed.

(** C5 (as the code has it).  On a route that carries an
    [Authorization] header, a caller who cannot be resolved is answered
    401 with [WWW-Authenticate: Bearer] and the store is untouched.  The
    detail is "Could not validate credentials" for every token that was
    sent and rejected -- unreadable or wrongly signed, expired, without
    [sub], or naming an email with no user -- and "Not authenticated"
    when the header is absent, empty or not of the Bearer scheme. *)
Theorem unresolved_caller_challenged rt req a db :
  authorization_of req = Some a ->
  (forall e,
     snd (run E (current_user_dependency E rt a) db) = inl e ->
     run E (app E rt req) db
     = (db, {| status_code := 401;
               headers := [("WWW-Authenticate", "Bearer")];
               content := JDetail match oauth2_scheme a with
                                  | inl _ => "Not authenticated"
                                  | inr _ => "Could not validate credentials"
                                  end |}))
  /\ (forall token,
        oauth2_scheme a = inr token ->
        (exists err,
           jwt_decode E (utcnow rt) token (SECRET_KEY E) [ALGORITHM E] = inl err)
        \/ (exists payload,
              jwt_decode E (utcnow rt) token (SECRET_KEY E) [ALGORITHM E]
                = inr payload
              /\ (claim_sub payload = None
                  \/ exists email,
                       claim_sub payload = Some email
                       /\ find (fun u => String.eqb (u_email u) email)
                               (users_collection db) = None)) ->
        snd (run E (current_user_dependency E rt a) db)
        = inl credentials_exception)
  /\ (forall e,
        oauth2_scheme a = inl e ->
        snd (run E (current_user_dependency E rt a) db)
        = inl (HTTPException 401 "Not authenticated" bearer_challenge)).
Proof.
  intros Ha. split; [|split].
  - intros e He. rewrite (run_unresolved rt req a db e Ha He).
    apply current_user_dependency_failure in He. subst e.
    destruct (oauth2_scheme a); reflexivity.
  - intros token Htoken Hcause.
    rewrite current_user_dependency_outcome, Htoken.
    destruct Hcause as [[err ->] | [payload [-> [-> | [email [-> ->]]]]]];
      reflexivity.
  - intros e He. rewrite current_user_dependency_outcome, He.
    now rewrite (oauth2_scheme_failure a e He).
Qed.

(** C6. On the routes that create a cinema hall, a screen, a show or a
    movie, or update or delete a movie, a resolved caller whose
    [is_admin] is not true is answered 403 and the store is untouched; a
    caller whose [is_admin] is true passes [is_admin_user] as the very
    same user. *)
Theorem admin_routes_guarded rt req a db u :
  admin_endpoint req = true ->
  authorization_of req = Some a ->
  snd (run E (current_user_dependency E rt a) db) = inr u ->
  (u_is_admin u <> Some true ->
   run E (app E rt req) db
   = (db, {| status_code := 403; headers := [];
             content := JDetail "Not enough permissions" |}))
  /\ (u_is_admin u = Some true ->
      is_admin_user u = inr u
      /\ run E (admin_dependency E rt a) db = (db, inr u)).
Proof.
  intros Hadmin Ha Hu. split.
  - intros Hflag.
    assert (Hguard : is_admin_user u
                     = inl (HTTPException 403 "Not enough permissions" [])).
    { unfold is_admin_user, is_admin_flag.
      destruct (u_is_admin u) as [[|]|]; [contradiction | reflexivity..]. }
    destruct req; simpl in Hadmin, Ha; try discriminate; injection Ha as ->;
      unfold app; cbn [endpoint];
      now rewrite run_behind_admin, Hu, Hguard.
  - intros Hflag.
    assert (Hguard : is_admin_user u = inr u).
    { unfold is_admin_user, is_admin_flag. now rewrite Hflag. }
    split; [exact Hguard|].
    now rewrite admin_dependency_outcome, Hu, Hguard.
Qed.

(** ** Signing up *)

Lemma run_create_user rt user db :
  run E (app E rt (POST_signup user)) db =
  (bump_oid (set_users db
     (users_collection db ++ [account_of E rt (next_oid db) user])),
   {| status_code := 200; headers := [];
      content := JUser {| ur_username := uc_username user;
                          ur_email := uc_email user;
                          ur_phone := uc_phone user;
                          ur_is_admin := uc_is_admin user |} |}).
Proof. reflexivity. Qed.

(** C7 (as the code has it).  Signing up never looks at the emails
    already stored: every signup appends a record with the email of the
    request, so an email that is taken ends up on one more record than
    before; a lookup by that email keeps answering the earliest record. *)
Theorem signup_always_appends rt user db :
  users_collection (fst (run E (app E rt (POST_signup user)) db))
  = (users_collection db ++ [account_of E rt (next_oid db) user])%list
  /\ status_code (snd (run E (app E rt (POST_signup user)) db)) = 200
  /\ List.length (users_with_email (uc_email user)
                    (fst (run E (app E rt (POST_signup user)) db)))
     = S (List.length (users_with_email (uc_email user) db))
  /\ (forall u0,
        snd (run E (get_user (uc_email user)) db) = inr (Some u0) ->
        (2 <= List.length (users_with_email (uc_email user)
                             (fst (run E (app E rt (POST_signup user)) db))))%nat
        /\ snd (run E (get_user (uc_email user))
                  (fst (run E (app E rt (POST_signup user)) db)))
           = inr (Some u0)).
Proof.
  rewrite run_create_user. cbn [fst snd status_code].
  assert (Hlen : List.length (users_with_email (uc_email user)
                   (bump_oid (set_users db
                      (users_collection db ++ [account_of E rt (next_oid db) user]))))
                 = S (List.length (users_with_email (uc_email user) db))).
  { unfold users_with_email. simpl. rewrite filter_app, length_app. simpl.
    rewrite String.eqb_refl. simpl. lia. }
  split; [reflexivity|]. split; [reflexivity|]. split; [exact Hlen|].
  intros u0 Hu0. cbn in Hu0. injection Hu0 as Hu0.
  split.
  - rewrite Hlen. unfold users_with_email.
    destruct (filter _ (users_collection db)) eqn:Hf; simpl; [|lia].
    apply find_none_filter in Hf. congruence.
  - cbn. f_equal. now apply find_app_some.
Qed.

(** ** The rating filter *)

Lemma ge_finite_supplied r mant ex :
  float_ge r (S754_finite false mant ex) = true ->
  float_truthy r = true /\ is_nan r = false.
Proof.
  unfold float_ge, SFleb.
  destruct r as [s | s | | s m e]; unfold SFcompare; try discriminate; auto.
Qed.

Lemma lt_finite_not_ge r mant ex :
  float_lt r (S754_finite false mant ex) = true ->
  float_ge r (S754_finite false mant ex) = false /\ is_nan r = false.
Proof.
  unfold float_lt, float_ge, SFltb, SFleb.
  destruct r as [s | s | | s m e]; unfold SFcompare.
  - auto.
  - destruct s; [auto | discriminate].
  - discriminate.
  - destruct s; [auto|].
    rewrite (Z.compare_antisym e ex).
    destruct (e ?= ex) eqn:He; unfold CompOpp; try discriminate; auto.
    change (Pos.compare_cont Eq) with Pos.compare.
    rewrite (Pos.compare_antisym m mant).
    destruct (Pos.compare m mant); unfold CompOpp; try discriminate; auto.
Qed.

Lemma ge_four_supplied r :
  float_ge r four = true -> float_truthy r = true /\ is_nan r = false.
Proof. apply ge_finite_supplied. Qed.

Lemma lt_four_not_ge r :
  float_lt r four = true -> float_ge r four = false /\ is_nan r = false.
Proof. apply lt_finite_not_ge. Qed.

Lemma mongo_num_gte_number x r :
  is_nan r = false -> mongo_num_gte x r = float_ge x r.
Proof.
  unfold mongo_num_gte, float_ge, SFleb. intros ->.
  destruct x; try reflexivity.
  destruct r; reflexivity.
Qed.

Lemma mongo_num_eq_number x r :
  is_nan r = false -> mongo_num_eq x r = float_eq x r.
Proof.
  unfold mongo_num_eq. intros ->.
  destruct x; reflexivity.
Qed.

Lemma movie_matches_rating_only c m :
  movie_matches E {| q_title := None; q_genre := None; q_rating := Some c |} m
  = rating_matches c (m_rating m).
Proof. reflexivity. Qed.

(** C8. With a threshold of at least 4, the query asks for
    [{"$gte": threshold}] and a movie matches exactly when its rating is
    greater than or equal to the threshold; with a nonzero threshold
    below 4 the query asks for the bare number and a movie matches
    exactly when its rating equals it. *)
Theorem rating_filter_threshold r m :
  (float_ge r four = true ->
   rating_query (Some r) = Some (RatingGte r)
   /\ (movie_matches E {| q_title := None; q_genre := None;
                          q_rating := rating_query (Some r) |} m = true
       <-> exists x, m_rating m = Some x /\ float_ge x r = true))
  /\ (float_truthy r = true -> float_lt r four = true ->
      rating_query (Some r) = Some (RatingEq r)
      /\ (movie_matches E {| q_title := None; q_genre := None;
                             q_rating := rating_query (Some r) |} m = true
          <-> exists x, m_rating m = Some x /\ float_eq x r = true)).
Proof.
  split.
  - intros Hge. destruct (ge_four_supplied r Hge) as [Ht Hnan].
    assert (Hq : rating_query (Some r) = Some (RatingGte r)).
    { unfold rating_query. now rewrite Ht, Hge. }
    split; [exact Hq|].
    rewrite Hq, movie_matches_rating_only. unfold rating_matches.
    destruct (m_rating m) as [x|].
    + rewrite (mongo_num_gte_number x r Hnan). split.
      * intros H. now exists x.
      * now intros [y [[= <-] H]].
    + split; [discriminate | now intros [y [? _]]].
  - intros Ht Hlt. destruct (lt_four_not_ge r Hlt) as [Hge Hnan].
    assert (Hq : rating_query (Some r) = Some (RatingEq r)).
    { unfold rating_query. now rewrite Ht, Hge. }
    split; [exact Hq|].
    rewrite Hq, movie_matches_rating_only. unfold rating_matches.
    destruct (m_rating m) as [x|].
    + rewrite (mongo_num_eq_number x r Hnan). split.
      * intros H. now exists x.
      * now intros [y [[= <-] H]].
    + split; [discriminate | now intros [y [? _]]].
Qed.

(** ** Tokens *)

Lemma create_access_token_claims subject expires_delta t :
  create_access_token E t {| claim_sub := Some subject; claim_exp := None |}
                      expires_delta
  = jws_sign E (issued_claims subject expires_delta t)
             (SECRET_KEY E) (ALGORITHM E).
Proof.
  unfold create_access_token, jwt_encode, issued_claims, lifetime,
    timedelta_truthy.
  destruct expires_delta as [d|]; [|reflexivity].
  destruct (d =? 0); reflexivity.
Qed.

Lemma timegm_mono a b : a <= b -> timegm a <= timegm b.
Proof. intros H. unfold timegm. apply Z.div_le_mono; lia. Qed.

Lemma timegm_next_second a b : a + 1000000 <= b -> timegm a < timegm b.
Proof.
  intros H. apply timegm_mono in H. unfold timegm in *.
  replace (a + 1000000) with (a + 1 * 1000000) in H by lia.
  rewrite Z.div_add in H by lia. lia.
Qed.

Lemma run_get_current_user_decoded now token payload db :
  jwt_decode E now token (SECRET_KEY E) [ALGORITHM E] = inr payload ->
  run E (get_current_user E now token) db =
  (db, match claim_sub payload with
       | None => inl credentials_exception
       | Some email =>
           match find (fun u => String.eqb (u_email u) email)
                      (users_collection db) with
           | Some u => inr u
           | None => inl credentials_exception
           end
       end).
Proof.
  intros H. unfold get_current_user. rewrite H.
  destruct (claim_sub payload); [|reflexivity].
  cbn. destruct (find _ _); reflexivity.
Qed.

Lemma run_get_current_user_rejected now token err db :
  jwt_decode E now token (SECRET_KEY E) [ALGORITHM E] = inl err ->
  run E (get_current_user E now token) db = (db, inl credentials_exception).
Proof. intros H. unfold get_current_user. now rewrite H. Qed.

(** C9 (as the code has it).  Take the token issued for [subject] at
    time [t], and let the signature layer verify what it signed.  The
    token lives for [expires_delta], or for 15 minutes when that is zero
    or not given.  Validated at [v], it gives back the subject as long as
    the whole second of [v] is not past the whole second of the expiry --
    so at any [v] up to [t + ttl] for a nonzero [ttl] -- and is refused
    as expired, a 401 for the caller, once it is past -- so from one
    second after [t + ttl] on. *)
Theorem token_round_trip subject expires_delta t v :
  let token :=
    create_access_token E t {| claim_sub := Some subject; claim_exp := None |}
                        expires_delta in
  let claims := issued_claims subject expires_delta t in
  jws_verify E token (SECRET_KEY E) [ALGORITHM E] = Some claims ->
  (timegm v <= timegm (t + lifetime expires_delta) ->
     jwt_decode E v token (SECRET_KEY E) [ALGORITHM E] = inr claims
     /\ claim_sub claims = Some subject
     /\ forall db,
          run E (get_current_user E v token) db
          = (db, match find (fun u => String.eqb (u_email u) subject)
                            (users_collection db) with
                 | Some u => inr u
                 | None => inl credentials_exception
                 end))
  /\ (timegm (t + lifetime expires_delta) < timegm v ->
      jwt_decode E v token (SECRET_KEY E) [ALGORITHM E]
        = inl ExpiredSignatureError
      /\ forall db,
           run E (get_current_user E v token) db
           = (db, inl credentials_exception))
  /\ (forall ttl,
        expires_delta = Some ttl -> ttl <> 0 ->
        (v <= t + ttl ->
         jwt_decode E v token (SECRET_KEY E) [ALGORITHM E] = inr claims)
        /\ (t + ttl + 1000000 <= v ->
            jwt_decode E v token (SECRET_KEY E) [ALGORITHM E]
              = inl ExpiredSignatureError))
  /\ lifetime (Some 0) = timedelta_minutes 15
  /\ lifetime None = timedelta_minutes 15.
Proof.
  intros token claims Hjws.
  assert (Hlive : timegm v <= timegm (t + lifetime expires_delta) ->
                  jwt_decode E v token (SECRET_KEY E) [ALGORITHM E] = inr claims).
  { intros Hv. unfold jwt_decode. rewrite Hjws. cbn [claims issued_claims claim_exp].
    destruct (Z.ltb_spec (timegm (t + lifetime expires_delta)) (timegm v));
      [lia | reflexivity]. }
  assert (Hdead : timegm (t + lifetime expires_delta) < timegm v ->
                  jwt_decode E v token (SECRET_KEY E) [ALGORITHM E]
                  = inl ExpiredSignatureError).
  { intros Hv. unfold jwt_decode. rewrite Hjws. cbn [claims issued_claims claim_exp].
    destruct (Z.ltb_spec (timegm (t + lifetime expires_delta)) (timegm v));
      [reflexivity | lia]. }
  split; [|split; [|split; [|split]]].
  - intros Hv. split; [now apply Hlive|]. split; [reflexivity|].
    intros db. now rewrite (run_get_current_user_decoded v token claims db (Hlive Hv)).
  - intros Hv. split; [now apply Hdead|].
    intros db. now apply run_get_current_user_rejected with ExpiredSignatureError, Hdead.
  - intros ttl -> Hnz.
    assert (Hl : lifetime (Some ttl) = ttl).
    { unfold lifetime. destruct (Z.eqb_spec ttl 0); [contradiction | reflexivity]. }
    rewrite Hl in Hlive, Hdead. split.
    + intros Hv. apply Hlive. now apply timegm_mono.
    + intros Hv. apply Hdead. now apply timegm_next_second.
  - reflexivity.
  - reflexivity.
Qed.

(** ** Signing up as an administrator *)

(** C10 (as the code has it).  [create_user] sits behind no dependency
    and stores [is_admin] as the body gives it.  When the email was not
    taken and the body says true, the stored account passes
    [is_admin_user], and any token that decodes to that email resolves
    to this account and passes the guard of the administrative routes.
    When the email was taken, the record is stored all the same, but
    such a token keeps resolving to the earlier record, whose own flag
    decides. *)
Theorem signup_grants_admin rt user db :
  let db' := fst (run E (app E rt (POST_signup user)) db) in
  let account := account_of E rt (next_oid db) user in
  authorization_of (POST_signup user) = None
  /\ status_code (snd (run E (app E rt (POST_signup user)) db)) = 200
  /\ users_collection db' = (users_collection db ++ [account])%list
  /\ u_is_admin account = uc_is_admin user
  /\ (users_with_email (uc_email user) db = [] ->
      uc_is_admin user = Some true ->
      is_admin_user account = inr account
      /\ forall rt' a token payload,
           oauth2_scheme a = inr token ->
           jwt_decode E (utcnow rt') token (SECRET_KEY E) [ALGORITHM E]
             = inr payload ->
           claim_sub payload = Some (uc_email user) ->
           run E (current_user_dependency E rt' a) db' = (db', inr account)
           /\ run E (admin_dependency E rt' a) db' = (db', inr account))
  /\ (forall u0,
        snd (run E (get_user (uc_email user)) db) = inr (Some u0) ->
        forall rt' a token payload,
          oauth2_scheme a = inr token ->
          jwt_decode E (utcnow rt') token (SECRET_KEY E) [ALGORITHM E]
            = inr payload ->
          claim_sub payload = Some (uc_email user) ->
          run E (current_user_dependency E rt' a) db' = (db', inr u0)
          /\ run E (admin_dependency E rt' a) db' = (db', is_admin_user u0)).
Proof.
  intros db' account. subst account.
  split; [reflexivity|]. split; [reflexivity|].
  split; [reflexivity|]. split; [reflexivity|].
  assert (Hdep : forall rt' a token payload r,
            oauth2_scheme a = inr token ->
            jwt_decode E (utcnow rt') token (SECRET_KEY E) [ALGORITHM E]
              = inr payload ->
            claim_sub payload = Some (uc_email user) ->
            find (fun u => String.eqb (u_email u) (uc_email user))
                 (users_collection db ++ [account_of E rt (next_oid db) user])
              = Some r ->
            run E (current_user_dependency E rt' a) db' = (db', inr r)
            /\ run E (admin_dependency E rt' a) db' = (db', is_admin_user r)).
  { intros rt' a token payload r Htoken Hdecode Hsub Hfind.
    assert (Hcur : snd (run E (current_user_dependency E rt' a) db') = inr r).
    { rewrite current_user_dependency_outcome, Htoken, Hdecode, Hsub.
      unfold db'. rewrite run_create_user.
      cbn [fst users_collection bump_oid set_users]. now rewrite Hfind. }
    split.
    - rewrite (surjective_pairing (run E (current_user_dependency E rt' a) db')).
      now rewrite run_current_user_dependency_store, Hcur.
    - now rewrite admin_dependency_outcome, Hcur. }
  split.
  - intros Hfresh Hadmin.
    assert (Hguard : is_admin_user (account_of E rt (next_oid db) user)
                     = inr (account_of E rt (next_oid db) user)).
    { unfold is_admin_user, is_admin_flag. cbn. now rewrite Hadmin. }
    split; [exact Hguard|].
    intros rt' a token payload Htoken Hdecode Hsub.
    assert (Hfind : find (fun u => String.eqb (u_email u) (uc_email user))
                      (users_collection db ++ [account_of E rt (next_oid db) user])
                    = Some (account_of E rt (next_oid db) user)).
    { apply find_none_filter in Hfresh.
      rewrite (find_app_none _ _ _ Hfresh). cbn [find].
      cbn [account_of u_email]. now rewrite String.eqb_refl. }
    destruct (Hdep rt' a token payload _ Htoken Hdecode Hsub Hfind) as [H1 H2].
    split; [exact H1|]. now rewrite H2, Hguard.
  - intros u0 Hu0 rt' a token payload Htoken Hdecode Hsub.
    cbn in Hu0. injection Hu0 as Hu0.
    apply (Hdep rt' a token payload u0 Htoken Hdecode Hsub).
    now apply find_app_some.
Qed.

End Verification.

(** * The statements at work on the sample data *)

(** Two requests race for seat 5: the store ends with one booking, one
    caller reads 200 and the other 400. *)
Example race_outcome :
  List.map b_user_id (bookings_collection (store race_state))
    = ["000000000000000000000001"]
  /\ inflight race_state
     = [ Ret {| status_code := 400; headers := [];
                content := JDetail "Seat already booked" |};
         Ret {| status_code := 200; headers := [];
                content := JMessage "Booking successful" |} ].
Proof. split; vm_compute; reflexivity. Qed.



(** C2, where the specification does not hold: the seat is free, its
    number does not fit 64 bits, and the call ends in a 500 with nothing
    stored. *)
Lemma far_out_seat_is_not_reserved :
  bookings_of (bc_show_id seat_far_out) (bc_seat_number seat_far_out)
              example_db = []
  /\ drive example_env (create_booking seat_far_out alice_account) example_db
     = (example_db, None)
  /\ serve example_env example_rt (POST_bookings as_alice seat_far_out)
           example_db
     = (example_db, {| status_code := 500; headers := [];
                       content := PlainText "Internal Server Error" |}).
Proof. vm_compute. repeat split. Qed.

Lemma reserve_once_then_taken_witness :
  int64 (bc_seat_number seat5) = true
  /\ snd (drive example_env (create_booking seat5 alice_account) example_db)
     = Some (inr (JMessage "Booking successful"))
  /\ drive example_env (create_booking seat5_again root_account)
           (store (play example_env {| store := booked_db; inflight := [] |}
                     [Arrive example_rt (POST_signup alice); Call 0]))
     = (store (play example_env {| store := booked_db; inflight := [] |}
                 [Arrive example_rt (POST_signup alice); Call 0]),
        Some (inl (HTTPException 400 "Seat already booked" []))).
Proof.
  assert (Hseat : int64 (bc_seat_number seat5) = true) by reflexivity.
  assert (Hfree : forall b, In b (bookings_collection example_db) ->
                    ~ (b_show_id b = bc_show_id seat5
                       /\ b_seat_number b = bc_seat_number seat5))
    by (intros b []).
  pose proof (reserve_once_then_taken example_env seat5 alice_account
                example_db Hseat Hfree) as [Hok [_ [Htaken [Hsteps _]]]].
  split; [exact Hseat|]. split; [exact Hok|].
  apply Htaken.
  - apply (Hsteps []). apply play_steps.
  - reflexivity.
  - reflexivity.
Defined.

Lemma seat_taken_changes_nothing_witness :
  bookings_of "show-1" 5 booked_db <> []
  /\ run example_env
       (app example_env example_rt
          (POST_bookings (bearer_for "root@example.com") seat5_again))
       booked_db
     = (booked_db, {| status_code := 400; headers := [];
                      content := JDetail "Seat already booked" |}).
Proof.
  assert (Htaken : bookings_of (bc_show_id seat5_again)
                     (bc_seat_number seat5_again) booked_db <> [])
    by (vm_compute; discriminate).
  split; [exact Htaken|].
  apply (proj2 (seat_taken_changes_nothing example_env seat5_again root_account
                  booked_db Htaken)).
  vm_compute. reflexivity.
Defined.

Lemma booking_user_is_token_user_witness :
  run example_env
    (app example_env example_rt
       (POST_bookings (bearer_for "alice@example.com") seat5_again)) example_db
  = run example_env
      (app example_env example_rt
         (POST_bookings (bearer_for "alice@example.com") seat5)) example_db
  /\ exists u,
       snd (run example_env
              (current_user_dependency example_env example_rt
                 (bearer_for "alice@example.com")) example_db) = inr u
       /\ bookings_collection
            (fst (run example_env
                    (app example_env example_rt
                       (POST_bookings (bearer_for "alice@example.com") seat5))
                    example_db))
          = [{| b_id := 2%N; b_show_id := "show-1";
                b_user_id := str_oid (u_id u); b_seat_number := 5 |}].
Proof.
  pose proof (booking_user_is_token_user example_env example_rt
                (bearer_for "alice@example.com") seat5 example_db) as [Hsame Hid].
  split.
  - apply (Hsame seat5_again); reflexivity.
  - apply Hid. vm_compute. reflexivity.
Defined.

(** C5, where the specification does not hold: with no header the detail reads "Not
    authenticated", with a token that does not verify it reads "Could not
    validate credentials"; both callers are unresolved, and their
    responses are not the same. *)
Lemma missing_header_is_told_apart :
  let missing :=
    run example_env (app example_env example_rt (GET_movies None None None None))
        example_db in
  let rejected :=
    run example_env
        (app example_env example_rt
           (GET_movies (Some "Bearer not-a-token") None None None))
        example_db in
  status_code (snd missing) = 401
  /\ status_code (snd rejected) = 401
  /\ headers (snd missing) = [("WWW-Authenticate", "Bearer")]
  /\ headers (snd rejected) = [("WWW-Authenticate", "Bearer")]
  /\ content (snd missing) = JDetail "Not authenticated"
  /\ content (snd rejected) = JDetail "Could not validate credentials"
  /\ snd missing <> snd rejected.
Proof.
  vm_compute. repeat split; discriminate.
Qed.

Lemma unresolved_caller_challenged_witness :
  run example_env
      (app example_env example_rt
         (POST_bookings (bearer_for "nobody@example.com") seat5)) example_db
  = (example_db,
     {| status_code := 401; headers := [("WWW-Authenticate", "Bearer")];
        content := JDetail "Could not validate credentials" |})
  /\ snd (run example_env
            (current_user_dependency example_env
               {| utcnow := utcnow example_rt + timedelta_minutes 31;
                  gensalt := "salt" |}
               (bearer_for "alice@example.com")) example_db)
     = inl credentials_exception
  /\ snd (run example_env
            (current_user_dependency example_env example_rt (Some "Basic abc"))
            example_db)
     = inl (HTTPException 401 "Not authenticated" bearer_challenge).
Proof.
  split; [|split].
  - apply (proj1 (unresolved_caller_challenged example_env example_rt
                    (POST_bookings (bearer_for "nobody@example.com") seat5)
                    (bearer_for "nobody@example.com") example_db eq_refl)
             credentials_exception).
    vm_compute. reflexivity.
  - refine (proj1 (proj2 (unresolved_caller_challenged example_env
                    {| utcnow := utcnow example_rt + timedelta_minutes 31;
                       gensalt := "salt" |}
                    (GET_shows (bearer_for "alice@example.com") None None)
                    (bearer_for "alice@example.com") example_db eq_refl))
                  "HS256.s3cr3t.000000006553f808.=alice@example.com" _ _).
    + vm_compute. reflexivity.
    + left. exists ExpiredSignatureError. vm_compute. reflexivity.
  - apply (proj2 (proj2 (unresolved_caller_challenged example_env example_rt
                    (GET_movie (Some "Basic abc") "42") (Some "Basic abc")
                    example_db eq_refl))
             (HTTPException 401 "Not authenticated" bearer_challenge)).
    vm_compute. reflexivity.
Defined.

Lemma admin_routes_guarded_witness :
  run example_env
      (app example_env example_rt
         (POST_cinemahalls (bearer_for "alice@example.com") hall)) example_db
  = (example_db, {| status_code := 403; headers := [];
                    content := JDetail "Not enough permissions" |})
  /\ run example_env
       (admin_dependency example_env example_rt (bearer_for "root@example.com"))
       example_db
     = (example_db, inr root_account).
Proof.
  split.
  - apply (proj1 (admin_routes_guarded example_env example_rt
                    (POST_cinemahalls (bearer_for "alice@example.com") hall)
                    (bearer_for "alice@example.com") example_db alice_account
                    eq_refl eq_refl eq_refl)).
    vm_compute. discriminate.
  - apply (proj2 (admin_routes_guarded example_env example_rt
                    (DELETE_movie (bearer_for "root@example.com") "42")
                    (bearer_for "root@example.com") example_db root_account
                    eq_refl eq_refl eq_refl)).
    reflexivity.
Defined.

(** C7, where the specification does not hold: the server reaches a store where two users
    share an email. *)
Lemma duplicate_email_is_reachable :
  reachable example_env twice_state
  /\ List.map u_email (users_collection (store twice_state))
     = ["alice@example.com"; "alice@example.com"]
  /\ ~ emails_unique (store twice_state).
Proof.
  split; [exact (play_steps example_env twice_schedule initial)|].
  split; [reflexivity|].
  intros H. specialize (H "alice@example.com").
  vm_compute in H. lia.
Qed.

Lemma signup_always_appends_witness :
  snd (run example_env (get_user "alice@example.com") example_db)
    = inr (Some alice_account)
  /\ (2 <= List.length
             (users_with_email "alice@example.com"
                (fst (run example_env
                        (app example_env example_rt (POST_signup alice))
                        example_db))))%nat
  /\ snd (run example_env (get_user "alice@example.com")
            (fst (run example_env
                    (app example_env example_rt (POST_signup alice))
                    example_db)))
     = inr (Some alice_account).
Proof.
  assert (Hold : snd (run example_env (get_user (uc_email alice)) example_db)
                 = inr (Some alice_account)) by reflexivity.
  split; [exact Hold|].
  exact (proj2 (proj2 (proj2 (signup_always_appends example_env example_rt
                                alice example_db)))
           alice_account Hold).
Defined.

Lemma rating_filter_threshold_witness :
  (float_ge four_and_a_half four = true
   /\ rating_query (Some four_and_a_half) = Some (RatingGte four_and_a_half))
  /\ (float_truthy three_and_a_half = true
      /\ float_lt three_and_a_half four = true
      /\ rating_query (Some three_and_a_half) = Some (RatingEq three_and_a_half)).
Proof.
  assert (Hge : float_ge four_and_a_half four = true) by reflexivity.
  assert (Hnz : float_truthy three_and_a_half = true) by reflexivity.
  assert (Hlt : float_lt three_and_a_half four = true) by reflexivity.
  split.
  - split; [exact Hge|].
    exact (proj1 (proj1 (rating_filter_threshold example_env four_and_a_half
                           (movie_rated four)) Hge)).
  - split; [exact Hnz|]. split; [exact Hlt|].
    exact (proj1 (proj2 (rating_filter_threshold example_env three_and_a_half
                           (movie_rated four)) Hnz Hlt)).
Defined.

(** The filter on three movies: [>= 4.5] keeps 4.5 and drops 4; [3.5]
    keeps 3.5 only, and a movie rated 4.5 is not found under it. *)
Example rating_filter_on_movies :
  filter (movie_matches example_env
            {| q_title := None; q_genre := None;
               q_rating := rating_query (Some four_and_a_half) |})
         [movie_rated four; movie_rated four_and_a_half;
          movie_rated three_and_a_half]
    = [movie_rated four_and_a_half]
  /\ filter (movie_matches example_env
               {| q_title := None; q_genre := None;
                  q_rating := rating_query (Some three_and_a_half) |})
            [movie_rated four; movie_rated four_and_a_half;
             movie_rated three_and_a_half]
     = [movie_rated three_and_a_half].
Proof. split; vm_compute; reflexivity. Qed.

(** C9, where the specification does not hold: a token issued with a ttl of zero is still
    accepted a minute later, long after the ttl has elapsed. *)
Lemma zero_ttl_token_outlives_ttl :
  let t := utcnow example_rt in
  let token :=
    create_access_token example_env t
      {| claim_sub := Some "alice@example.com"; claim_exp := None |} (Some 0) in
  t + 0 < t + 60000000
  /\ jwt_decode example_env (t + 60000000) token
       (SECRET_KEY example_env) [ALGORITHM example_env]
     = inr {| claim_sub := Some "alice@example.com";
              claim_exp := Some 1700000900 |}
  /\ jwt_decode example_env (t + 60000000) token
       (SECRET_KEY example_env) [ALGORITHM example_env]
     <> inl ExpiredSignatureError
  /\ run example_env (get_current_user example_env (t + 60000000) token)
         example_db
     = (example_db, inr alice_account).
Proof.
  vm_compute. repeat split; discriminate.
Qed.

(** A token with a ttl of one minute, issued at 0.2 s into a second, is
    still accepted half a second after its minute is over: [exp] and the
    clock are compared in whole seconds. *)
Example accepted_within_the_expiry_second :
  let t := utcnow example_rt in
  let token :=
    create_access_token example_env t
      {| claim_sub := Some "alice@example.com"; claim_exp := None |}
      (Some (timedelta_minutes 1)) in
  t + timedelta_minutes 1 < t + timedelta_minutes 1 + 500000
  /\ jwt_decode example_env (t + timedelta_minutes 1 + 500000) token
       (SECRET_KEY example_env) [ALGORITHM example_env]
     = inr {| claim_sub := Some "alice@example.com";
              claim_exp := Some 1700000060 |}.
Proof. vm_compute. split; reflexivity. Qed.

Lemma token_round_trip_witness :
  let t := utcnow example_rt in
  let token :=
    create_access_token example_env t
      {| claim_sub := Some "alice@example.com"; claim_exp := None |}
      (Some (timedelta_minutes 30)) in
  jwt_decode example_env (t + timedelta_minutes 29) token
    (SECRET_KEY example_env) [ALGORITHM example_env]
  = inr (issued_claims "alice@example.com" (Some (timedelta_minutes 30)) t)
  /\ jwt_decode example_env (t + timedelta_minutes 31) token
       (SECRET_KEY example_env) [ALGORITHM example_env]
     = inl ExpiredSignatureError.
Proof.
  intros t token.
  assert (Hjws : jws_verify example_env token (SECRET_KEY example_env)
                   [ALGORITHM example_env]
                 = Some (issued_claims "alice@example.com"
                           (Some (timedelta_minutes 30)) t))
    by (vm_compute; reflexivity).
  pose proof (token_round_trip example_env "alice@example.com"
                (Some (timedelta_minutes 30)) t (t + timedelta_minutes 29) Hjws)
    as [_ [_ [Hlive _]]].
  pose proof (token_round_trip example_env "alice@example.com"
                (Some (timedelta_minutes 30)) t (t + timedelta_minutes 31) Hjws)
    as [_ [_ [Hdead _]]].
  split.
  - apply (Hlive (timedelta_minutes 30) eq_refl); [discriminate|].
    vm_compute. discriminate.
  - apply (Hdead (timedelta_minutes 30) eq_refl); [discriminate|].
    vm_compute. discriminate.
Defined.

(** C10, where the specification does not hold: a signup that asks for
    [is_admin] under an email already taken is answered 200, but a valid
    token for that email still resolves to the earlier user, who is
    refused on the administrative routes, and the new password does not
    log in. *)
Lemma taken_email_admin_signup_is_stranded :
  uc_is_admin mallory = Some true
  /\ status_code
       (snd (run example_env (app example_env example_rt (POST_signup mallory))
               example_db)) = 200
  /\ run example_env
       (current_user_dependency example_env example_rt
          (bearer_for "alice@example.com")) mallory_db
     = (mallory_db, inr alice_account)
  /\ snd (run example_env
            (app example_env example_rt
               (POST_cinemahalls (bearer_for "alice@example.com") hall))
            mallory_db)
     = {| status_code := 403; headers := [];
          content := JDetail "Not enough permissions" |}
  /\ snd (run example_env
            (app example_env example_rt
               (POST_token "alice@example.com" "hunter2")) mallory_db)
     = login_refused.
Proof. vm_compute. repeat split. Qed.

Lemma signup_grants_admin_witness :
  users_with_email (uc_email root)
    (fst (run example_env (app example_env example_rt (POST_signup alice))
            empty_db)) = []
  /\ uc_is_admin root = Some true
  /\ run example_env
       (admin_dependency example_env example_rt (bearer_for "root@example.com"))
       example_db
     = (example_db, inr root_account)
  /\ run example_env
       (admin_dependency example_env example_rt (bearer_for "alice@example.com"))
       mallory_db
     = (mallory_db, is_admin_user alice_account).
Proof.
  assert (Hfresh : users_with_email (uc_email root)
                     (fst (run example_env
                             (app example_env example_rt (POST_signup alice))
                             empty_db)) = []) by reflexivity.
  assert (Hflag : uc_is_admin root = Some true) by reflexivity.
  split; [exact Hfresh|]. split; [exact Hflag|]. split.
  - refine (proj2 (proj2 (proj1 (proj2 (proj2 (proj2 (proj2
              (signup_grants_admin example_env example_rt root
                 (fst (run example_env
                         (app example_env example_rt (POST_signup alice))
                         empty_db))))))) Hfresh Hflag)
              example_rt (bearer_for "root@example.com")
              "HS256.s3cr3t.000000006553f808.=root@example.com"
              {| claim_sub := Some "root@example.com";
                 claim_exp := Some 1700001800 |} _ _ _));
      vm_compute; reflexivity.
  - refine (proj2 (proj2 (proj2 (proj2 (proj2 (proj2
              (signup_grants_admin example_env example_rt mallory example_db)))))
              alice_account eq_refl
              example_rt (bearer_for "alice@example.com")
              "HS256.s3cr3t.000000006553f808.=alice@example.com"
              {| claim_sub := Some "alice@example.com";
                 claim_exp := Some 1700001800 |} _ _ _));
      vm_compute; reflexivity.
Defined.

(** * Further properties of the handlers *)

Section Handlers.

Variable E : Env.

(** ** Logging in *)

Lemma run_login rt username password db :
  run E (app E rt (POST_token username password)) db =
  (db, match find (fun u => String.eqb (u_email u) username)
                  (users_collection db) with
       | None => login_refused
       | Some u =>
           if pwd_verify E password (u_password u)
           then ok (JToken (login_token E (utcnow rt) (u_email u)) "bearer")
           else login_refused
       end).
Proof.
  unfold app, respond, endpoint, login_for_access_token, authenticate_user,
    get_user, verify_password.
  cbn. destruct (find _ _) as [u|]; [|reflexivity].
  cbn. destruct (pwd_verify E password (u_password u)); reflexivity.
Qed.

Lemma find_email_found email l u :
  find (fun u => String.eqb (u_email u) email) l = Some u -> u_email u = email.
Proof.
  intros H. apply find_some in H. destruct H as [_ H].
  now apply String.eqb_eq in H.
Qed.

(** X1. [POST /token] never writes to the store.  An email nobody signed
    up with and a password that does not verify against the earliest
    record of that email get one and the same 401; the token is handed
    out only when the password verifies against that earliest record,
    and it is issued for the email typed in. *)
Theorem login_refuses_uniformly rt username password db :
  fst (run E (app E rt (POST_token username password)) db) = db
  /\ (snd (run E (get_user username) db) = inr None ->
      snd (run E (app E rt (POST_token username password)) db) = login_refused)
  /\ (forall u,
        snd (run E (get_user username) db) = inr (Some u) ->
        (pwd_verify E password (u_password u) = false ->
         snd (run E (app E rt (POST_token username password)) db)
         = login_refused)
        /\ (pwd_verify E password (u_password u) = true ->
            snd (run E (app E rt (POST_token username password)) db)
            = ok (JToken (login_token E (utcnow rt) username) "bearer"))).
Proof.
  rewrite run_login. cbn [fst snd].
  split; [reflexivity|]. split.
  - cbn. intros [= ->]. reflexivity.
  - intros u. cbn. intros [= Hu]. rewrite Hu.
    rewrite (find_email_found _ _ _ Hu).
    split; intros ->; reflexivity.
Qed.

Lemma oauth2_scheme_bearer token : oauth2_scheme (bearer token) = inr token.
Proof. reflexivity. Qed.

Lemma lifetime_minutes m :
  lifetime (Some (timedelta_minutes m))
  = if m =? 0 then timedelta_minutes 15 else timedelta_minutes m.
Proof.
  unfold lifetime, timedelta_minutes.
  destruct (Z.eqb_spec m 0) as [-> | Hm]; [reflexivity|].
  destruct (Z.eqb_spec (m * 60000000) 0); [lia | reflexivity].
Qed.

Lemma jwt_decode_verified now token claims exp :
  jws_verify E token (SECRET_KEY E) [ALGORITHM E] = Some claims ->
  claim_exp claims = Some exp ->
  jwt_decode E now token (SECRET_KEY E) [ALGORITHM E]
  = if exp <? timegm now then inl ExpiredSignatureError else inr claims.
Proof. intros Hjws Hexp. unfold jwt_decode. now rewrite Hjws, Hexp. Qed.

(** X2. A token from [POST /token], sent back as [Bearer <token>],
    resolves to the earliest user stored under the email it was issued
    for, on any route behind [get_current_user], as long as the clock's
    whole second is not past the whole second of issue time plus
    [ACCESS_TOKEN_EXPIRE_MINUTES] minutes (15 minutes when that setting
    is 0); past it the caller is refused with 401.  With a negative
    setting the token is refused from the moment it is issued. *)
Theorem login_token_resolves t email rt db :
  let token := login_token E t email in
  let minutes := ACCESS_TOKEN_EXPIRE_MINUTES E in
  let expiry := t + timedelta_minutes (if minutes =? 0 then 15 else minutes) in
  jws_verify E token (SECRET_KEY E) [ALGORITHM E]
    = Some (issued_claims email (Some (timedelta_minutes minutes)) t) ->
  (timegm (utcnow rt) <= timegm expiry ->
   run E (current_user_dependency E rt (bearer token)) db
   = (db, match find (fun u => String.eqb (u_email u) email)
                     (users_collection db) with
          | Some u => inr u
          | None => inl credentials_exception
          end))
  /\ (timegm expiry < timegm (utcnow rt) ->
      run E (current_user_dependency E rt (bearer token)) db
      = (db, inl credentials_exception))
  /\ (minutes < 0 -> t <= utcnow rt ->
      run E (current_user_dependency E rt (bearer token)) db
      = (db, inl credentials_exception)).
Proof.
  intros token minutes expiry Hjws.
  assert (Hexp : t + lifetime (Some (timedelta_minutes minutes)) = expiry).
  { unfold expiry. rewrite lifetime_minutes. now destruct (minutes =? 0). }
  pose proof (jwt_decode_verified (utcnow rt) token _ _ Hjws eq_refl) as Hdec.
  rewrite Hexp in Hdec.
  assert (Hrun : run E (current_user_dependency E rt (bearer token)) db
                 = run E (get_current_user E (utcnow rt) token) db).
  { unfold current_user_dependency.
    rewrite run_hbind. cbn [lift run fst snd].
    now rewrite oauth2_scheme_bearer. }
  assert (Hdead : timegm expiry < timegm (utcnow rt) ->
                  run E (current_user_dependency E rt (bearer token)) db
                  = (db, inl credentials_exception)).
  { intros Hv. rewrite Hrun.
    apply run_get_current_user_rejected with ExpiredSignatureError.
    rewrite Hdec. destruct (Z.ltb_spec (timegm expiry) (timegm (utcnow rt)));
      [reflexivity | lia]. }
  split; [|split].
  - intros Hv. rewrite Hrun.
    rewrite (run_get_current_user_decoded E (utcnow rt) token
               (issued_claims email (Some (timedelta_minutes minutes)) t) db).
    + reflexivity.
    + rewrite Hdec.
      destruct (Z.ltb_spec (timegm expiry) (timegm (utcnow rt)));
        [lia | reflexivity].
  - exact Hdead.
  - intros Hneg Hlater. apply Hdead.
    unfold expiry. destruct (Z.eqb_spec minutes 0); [lia|].
    apply Z.lt_le_trans with (timegm t); [|now apply timegm_mono].
    apply timegm_next_second. unfold timedelta_minutes. lia.
Qed.

(** X3. Signing up and then logging in with the same email and
    password: when the email was free and the hash verifies its own
    password, the login answers the token; when the email was taken, the
    login is checked against the earlier record, so the new account is
    refused unless its password verifies against the earlier hash. *)
Theorem signup_then_login rt user db rt' :
  let db1 := fst (run E (app E rt (POST_signup user)) db) in
  (users_with_email (uc_email user) db = [] ->
   pwd_verify E (uc_password user)
              (get_password_hash E rt (uc_password user)) = true ->
   run E (app E rt' (POST_token (uc_email user) (uc_password user))) db1
   = (db1, ok (JToken (login_token E (utcnow rt') (uc_email user)) "bearer")))
  /\ (forall u0,
        snd (run E (get_user (uc_email user)) db) = inr (Some u0) ->
        pwd_verify E (uc_password user) (u_password u0) = false ->
        run E (app E rt' (POST_token (uc_email user) (uc_password user))) db1
        = (db1, login_refused)).
Proof.
  intros db1. unfold db1. rewrite run_create_user. cbn [fst].
  split.
  - intros Hfree Hverify. apply find_none_filter in Hfree.
    rewrite run_login. cbn [users_collection bump_oid set_users].
    rewrite (find_app_none _ _ _ Hfree). cbn [find account_of u_email].
    rewrite String.eqb_refl. unfold account_of. cbn [u_password u_email].
    now rewrite Hverify.
  - intros u0 Hu0 Hverify. cbn in Hu0. injection Hu0 as Hu0.
    rewrite run_login. cbn [users_collection bump_oid set_users].
    rewrite (find_app_some _ _ _ _ Hu0). now rewrite Hverify.
Qed.

(** ** What a refusal leaves behind *)




Lemma run_shows_with_titles_store shows db :
  fst (run E (shows_with_titles shows) db) = db.
Proof.
  induction shows as [|show rest IH]; [reflexivity|].
  cbn [shows_with_titles]. rewrite run_hbind.
  unfold to_ObjectId.
  destruct (ObjectId_of_str (sh_movie_id show)) as [oid|]; [|reflexivity].
  cbn [ret run fst snd]. rewrite run_hbind. cbn [await run exec fst snd].
  rewrite run_hbind, IH.
  destruct (snd (run E (shows_with_titles rest) db)); reflexivity.
Qed.

(** The handlers behind the dependencies, on the store. *)
Lemma run_read_movie_store id u db : fst (run E (read_movie id u) db) = db.
Proof.
  unfold read_movie, to_ObjectId.
  destruct (ObjectId_of_str id) as [oid|]; [|reflexivity].
  cbn. destruct (find _ _) as [m|]; [|reflexivity].
  destruct (MovieCreate_of m); reflexivity.
Qed.

Lemma run_search_movies_store title genre rating u db :
  fst (run E (search_movies title genre rating u) db) = db.
Proof.
  unfold search_movies. cbn.
  destruct (all_some _ _); reflexivity.
Qed.

Lemma run_search_shows_store movie_id show_time u db :
  fst (run E (search_shows movie_id show_time u) db) = db.
Proof.
  unfold search_shows. rewrite run_hbind. cbn [await run exec fst snd].
  rewrite run_hbind, run_shows_with_titles_store.
  destruct (snd _); reflexivity.
Qed.

Lemma run_update_movie id mu u db :
  run E (update_movie id mu u) db =
  match ObjectId_of_str id with
  | None => (db, inl (Unhandled "InvalidId"))
  | Some oid =>
      let r := update_first (fun m => N.eqb (m_id m) oid) (apply_set mu)
                            (movies_collection db) in
      (set_movies db (fst r),
       if snd r =? 0 then inl (HTTPException 404 "Movie not found" [])
       else inr (JMessage "Movie updated"))
  end.
Proof.
  unfold update_movie, to_ObjectId.
  destruct (ObjectId_of_str id) as [oid|]; [|reflexivity].
  cbn. destruct (update_first _ _ _) as [l n]. cbn.
  destruct (n =? 0); reflexivity.
Qed.

Lemma run_delete_movie id u db :
  run E (delete_movie id u) db =
  match ObjectId_of_str id with
  | None => (db, inl (Unhandled "InvalidId"))
  | Some oid =>
      let r := delete_first (fun m => N.eqb (m_id m) oid)
                            (movies_collection db) in
      if snd r =? 0
      then (set_movies db (fst r), inl (HTTPException 404 "Movie not found" []))
      else (set_shows (set_movies db (fst r)) (shows_kept id db),
            inr (JMessage "Movie and related shows deleted"))
  end.
Proof.
  unfold delete_movie, to_ObjectId.
  destruct (ObjectId_of_str id) as [oid|]; [|reflexivity].
  cbn. destruct (delete_first _ _) as [l n]. cbn.
  destruct (n =? 0); reflexivity.
Qed.


Lemma fst_run_respond (h : Handler Content) db :
  fst (run E (respond h) db) = fst (run E h db).
Proof. now rewrite run_respond. Qed.



(** X5. [POST /token] and the three GET routes never write: for every
    request to them and whatever they answer, the store is unchanged. *)
Theorem reading_routes_leave_store rt req db :
  reading_route req = true ->
  fst (run E (app E rt req) db) = db.
Proof.
  destruct req; cbn [reading_route]; try discriminate; intros _;
    try rewrite run_login; try reflexivity;
    unfold app; cbn [endpoint].
  - rewrite run_behind_current_user.
    destruct (snd _); [reflexivity|].
    rewrite fst_run_respond. apply run_read_movie_store.
  - rewrite run_behind_current_user.
    destruct (snd _); [reflexivity|].
    rewrite fst_run_respond. apply run_search_movies_store.
  - rewrite run_behind_current_user.
    destruct (snd _); [reflexivity|].
    rewrite fst_run_respond. apply run_search_shows_store.
Qed.

(** ** Deleting a movie *)

Lemma delete_first_matched {A} (p : A -> bool) (l : list A) :
  snd (delete_first p l) <> 0 ->
  exists l1 x l2,
    l = (l1 ++ x :: l2)%list /\ Forall (fun y => p y = false) l1
    /\ p x = true /\ fst (delete_first p l) = (l1 ++ l2)%list.
Proof.
  induction l as [|y l IH]; simpl; [congruence|].
  destruct (p y) eqn:Hy; simpl.
  - intros _. exists [], y, l. auto.
  - destruct (delete_first p l) as [l' n]. simpl in *.
    intros Hn. destruct (IH Hn) as [l1 [x [l2 [-> [Hl1 [Hx ->]]]]]].
    exists (y :: l1), x, l2. auto.
Qed.



Lemma ObjectId_of_str_truthy id oid :
  ObjectId_of_str id = Some oid -> str_truthy id = true.
Proof.
  unfold ObjectId_of_str. destruct id; [discriminate | reflexivity].
Qed.

(** X6. When [delete_movie] answers its success message, the first
    movie with that [_id] is gone and no other movie is touched; every
    show whose [movie_id] is the string of the path is gone, every other
    show stays, in order; users, halls, screens and bookings are as
    before; and a search for the shows of that id finds none. *)
Theorem delete_movie_cascades id u db :
  snd (run E (delete_movie id u) db)
    = inr (JMessage "Movie and related shows deleted") ->
  let db' := fst (run E (delete_movie id u) db) in
  (exists oid before m after,
     ObjectId_of_str id = Some oid
     /\ m_id m = oid
     /\ Forall (fun m' => m_id m' <> oid) before
     /\ movies_collection db = (before ++ m :: after)%list
     /\ movies_collection db' = (before ++ after)%list)
  /\ shows_collection db' = shows_kept id db
  /\ (forall s, In s (shows_collection db') <->
                In s (shows_collection db) /\ sh_movie_id s <> id)
  /\ users_collection db' = users_collection db
  /\ cinema_halls_collection db' = cinema_halls_collection db
  /\ screens_collection db' = screens_collection db
  /\ bookings_collection db' = bookings_collection db
  /\ (forall u',
        run E (search_shows (Some id) None u') db' = (db', inr (JShows []))).
Proof.
  rewrite run_delete_movie.
  destruct (ObjectId_of_str id) as [oid|] eqn:Hid; [|discriminate].
  cbn zeta.
  destruct (Z.eqb_spec (snd (delete_first (fun m => N.eqb (m_id m) oid)
              (movies_collection db))) 0) as [Hz|Hz]; [discriminate|].
  intros _. cbn [fst].
  assert (Hkept : forall s, In s (shows_kept id db) <->
                    In s (shows_collection db) /\ sh_movie_id s <> id).
  { intros s. unfold shows_kept. rewrite filter_In, negb_true_iff.
    rewrite <- not_true_iff_false, String.eqb_eq. tauto. }
  split; [|split; [|split; [|repeat split]]]; try reflexivity.
  - destruct (delete_first_matched _ _ Hz) as [l1 [x [l2 [Hl [Hl1 [Hx Hd]]]]]].
    exists oid, l1, x, l2. cbn [movies_collection set_shows set_movies].
    apply N.eqb_eq in Hx.
    split; [reflexivity|]. split; [exact Hx|].
    split; [|split; [exact Hl | exact Hd]].
    eapply Forall_impl; [|exact Hl1].
    intros y Hy. now apply N.eqb_neq.
  - exact Hkept.
  - intros u'. unfold search_shows.
    rewrite run_hbind. cbn [await run exec fst snd truthy_str].
    rewrite (ObjectId_of_str_truthy id oid Hid).
    cbn [shows_collection set_shows].
    assert (Hnone : filter (show_matches {| sq_movie_id := Some id;
                                            sq_show_time := None |})
                           (shows_kept id db) = []).
    { unfold shows_kept. clear Hkept.
      induction (shows_collection db) as [|s l IH]; [reflexivity|].
      simpl. destruct (String.eqb (sh_movie_id s) id) eqn:Hs; simpl; [exact IH|].
      unfold show_matches at 1. cbn. rewrite Hs. exact IH. }
    rewrite Hnone. reflexivity.
Qed.

(** ** A movie by its id *)

Lemma admin_passes u : u_is_admin u = Some true -> is_admin_user u = inr u.
Proof. intros H. unfold is_admin_user, is_admin_flag. now rewrite H. Qed.

Lemma run_read_movie id u db :
  run E (read_movie id u) db =
  (db, match ObjectId_of_str id with
       | None => inl (Unhandled "InvalidId")
       | Some oid =>
           match find (fun m => N.eqb (m_id m) oid) (movies_collection db) with
           | None => inl (HTTPException 404 "Movie not found" [])
           | Some m =>
               match MovieCreate_of m with
               | Some mc => inr (JMovie mc)
               | None => inl (Unhandled "ValidationError")
               end
           end
       end).
Proof.
  unfold read_movie, to_ObjectId.
  destruct (ObjectId_of_str id) as [oid|]; [|reflexivity].
  cbn. destruct (find _ _) as [m|]; [|reflexivity].
  destruct (MovieCreate_of m); reflexivity.
Qed.

Lemma has_foreign_char_fails s acc :
  has_foreign_char s = true -> parse_hex s acc = None.
Proof.
  revert acc. induction s as [|c r IH]; intros acc; cbn; [discriminate|].
  destruct (hex_value c); [apply IH | reflexivity].
Qed.

Lemma surely_invalid_raises id :
  surely_invalid id = true -> ObjectId_of_str id = None.
Proof.
  unfold surely_invalid, ObjectId_of_str.
  destruct (Nat.eqb (String.length id) 24); cbn; [|reflexivity].
  apply has_foreign_char_fails.
Qed.


(** ** Updating a movie *)

Lemma update_first_matched {A} (p : A -> bool) (f : A -> A) (l : list A) x :
  find p l = Some x ->
  exists l1 l2,
    l = (l1 ++ x :: l2)%list /\ Forall (fun y => p y = false) l1
    /\ update_first p f l = ((l1 ++ f x :: l2)%list, 1).
Proof.
  induction l as [|y l IH]; simpl; [discriminate|].
  destruct (p y) eqn:Hy.
  - intros [= ->]. exists [], l. auto.
  - intros Hf. destruct (IH Hf) as [l1 [l2 [-> [Hl1 ->]]]].
    exists (y :: l1), l2. auto.
Qed.

Lemma find_after_unmatched {A} (p : A -> bool) (l1 l2 : list A) :
  Forall (fun y => p y = false) l1 -> find p (l1 ++ l2) = find p l2.
Proof.
  induction 1 as [|y l1 Hy _ IH]; simpl; [reflexivity|].
  now rewrite Hy.
Qed.

Lemma apply_set_twice mu m : apply_set mu (apply_set mu m) = apply_set mu m.
Proof.
  unfold apply_set. cbn.
  destruct mu as [[?|] [?|] [?|] [?|] [?|]]; reflexivity.
Qed.

(** X8. Updating a movie that exists, with a body that sets a field and
    values BSON keeps as given, answers "Movie updated", rewrites
    the first movie with that [_id] by the fields the body set and
    leaves every other movie, and every field the body did not set, as
    it was; reading the id afterwards gives the rewritten movie, and
    sending the same update again changes nothing more. *)
Theorem update_then_read id mu u db oid m :
  ObjectId_of_str id = Some oid ->
  find (fun m => N.eqb (m_id m) oid) (movies_collection db) = Some m ->
  sets_any mu = true ->
  update_stored_as_given mu ->
  let db' := fst (run E (update_movie id mu u) db) in
  snd (run E (update_movie id mu u) db) = inr (JMessage "Movie updated")
  /\ (exists before after,
        movies_collection db = (before ++ m :: after)%list
        /\ movies_collection db' = (before ++ apply_set mu m :: after)%list)
  /\ m_id (apply_set mu m) = m_id m
  /\ (mu_title mu = None -> m_title (apply_set mu m) = m_title m)
  /\ (mu_genre mu = None -> m_genre (apply_set mu m) = m_genre m)
  /\ (mu_rating mu = None -> m_rating (apply_set mu m) = m_rating m)
  /\ (mu_duration mu = None -> m_duration (apply_set mu m) = m_duration m)
  /\ (mu_release_date mu = None ->
      m_release_date (apply_set mu m) = m_release_date m)
  /\ (forall u',
        run E (read_movie id u') db'
        = (db', match MovieCreate_of (apply_set mu m) with
                | Some mc => inr (JMovie mc)
                | None => inl (Unhandled "ValidationError")
                end))
  /\ run E (update_movie id mu u) db' = (db', inr (JMessage "Movie updated")).
Proof.
  intros Hid Hm _ _ db'. unfold db'. rewrite run_update_movie, Hid. cbn zeta.
  destruct (update_first_matched _ (apply_set mu) _ _ Hm)
    as [l1 [l2 [Hl [Hl1 Hup]]]].
  rewrite Hup. cbn [fst snd Z.eqb].
  assert (Hkey : N.eqb (m_id m) oid = true).
  { apply find_some in Hm. apply Hm. }
  assert (Hfind : find (fun m => N.eqb (m_id m) oid)
                    (l1 ++ apply_set mu m :: l2) = Some (apply_set mu m)).
  { rewrite (find_after_unmatched _ _ _ Hl1). cbn [find].
    change (m_id (apply_set mu m)) with (m_id m). now rewrite Hkey. }
  split; [reflexivity|].
  split; [exists l1, l2; split; [exact Hl | reflexivity]|].
  split; [reflexivity|].
  repeat (split; [intros H; unfold apply_set; cbn; now rewrite H|]).
  split.
  - intros u'. rewrite run_read_movie, Hid.
    cbn [movies_collection set_movies]. now rewrite Hfind.
  - rewrite run_update_movie, Hid. cbn zeta.
    cbn [movies_collection set_movies].
    destruct (update_first_matched _ (apply_set mu) _ _ Hfind)
      as [k1 [k2 [Hk [Hk1 Hup2]]]].
    rewrite Hup2. cbn [fst snd Z.eqb].
    rewrite apply_set_twice.
    assert (Hsame : (k1 ++ apply_set mu m :: k2)%list
                    = (l1 ++ apply_set mu m :: l2)%list) by now rewrite Hk.
    rewrite Hsame. now destruct db.
Qed.




Lemma run_search_movies title genre rating u db :
  run E (search_movies title genre rating u) db =
  (db, match all_some MovieSearchResponse_of
               (firstn 100 (filter (movie_matches E (movie_query title genre rating))
                                   (movies_collection db))) with
       | Some l => inr (JMovies l)
       | None => inl (Unhandled "ValidationError")
       end).
Proof.
  unfold search_movies. cbn. fold (movie_query title genre rating).
  destruct (all_some _ _); reflexivity.
Qed.


(** ** Searching movies *)

Lemma all_some_length {A B} (f : A -> option B) (l : list A) ys :
  all_some f l = Some ys -> List.length ys = List.length l.
Proof.
  revert ys. induction l as [|x l IH]; simpl; intros ys.
  - now intros [= <-].
  - destruct (f x); [|discriminate].
    destruct (all_some f l) as [ys'|]; [|discriminate].
    intros [= <-]. simpl. now rewrite (IH ys').
Qed.

Lemma all_some_In {A B} (f : A -> option B) (l : list A) ys y :
  all_some f l = Some ys -> In y ys -> exists x, In x l /\ f x = Some y.
Proof.
  revert ys. induction l as [|x l IH]; simpl; intros ys.
  - intros [= <-] [].
  - destruct (f x) as [y0|] eqn:Hx; [|discriminate].
    destruct (all_some f l) as [ys'|]; [|discriminate].
    intros [= <-] [<- | Hin].
    + exists x. auto.
    + destruct (IH ys' eq_refl Hin) as [x' [Hx' Hy]]. exists x'. auto.
Qed.

Lemma all_some_complete {A B} (f : A -> option B) (l : list A) ys x :
  all_some f l = Some ys -> In x l -> exists y, In y ys /\ f x = Some y.
Proof.
  revert ys. induction l as [|x0 l IH]; simpl; intros ys.
  - intros _ [].
  - destruct (f x0) as [y0|] eqn:Hx; [|discriminate].
    destruct (all_some f l) as [ys'|]; [|discriminate].
    intros [= <-] [<- | Hin].
    + exists y0. simpl. auto.
    + destruct (IH ys' eq_refl Hin) as [y [Hy Hf]]. exists y. simpl. auto.
Qed.

Lemma In_firstn {A} n (l : list A) x : In x (firstn n l) -> In x l.
Proof.
  revert l. induction n as [|n IH]; intros [|y l]; simpl; try tauto.
  intros [-> | H]; auto.
Qed.

(** X10. When [search_movies] answers a list, it has at most 100
    entries; every entry is a stored movie that passes the title, genre
    and rating filters, shown with its own fields and the string of its
    [_id]; and when at most 100 movies pass the filters, every one of
    them is in the list. *)
Theorem search_movies_sound title genre rating u db l :
  snd (run E (search_movies title genre rating u) db) = inr (JMovies l) ->
  (List.length l <= 100)%nat
  /\ (forall r, In r l ->
        exists m,
          In m (movies_collection db)
          /\ movie_matches E (movie_query title genre rating) m = true
          /\ msr_movie_id r = str_oid (m_id m)
          /\ m_title m = Some (msr_title r)
          /\ m_genre m = Some (msr_genre r)
          /\ m_rating m = Some (msr_rating r)
          /\ m_duration m = Some (msr_duration r)
          /\ m_release_date m = Some (msr_release_date r))
  /\ ((List.length (filter (movie_matches E (movie_query title genre rating))
                           (movies_collection db)) <= 100)%nat ->
      forall m,
        In m (movies_collection db) ->
        movie_matches E (movie_query title genre rating) m = true ->
        exists r, In r l /\ MovieSearchResponse_of m = Some r).
Proof.
  rewrite run_search_movies. cbn [snd].
  destruct (all_some _ _) as [l0|] eqn:Hall; [|discriminate].
  intros [= <-]. split; [|split].
  - rewrite (all_some_length _ _ _ Hall), length_firstn. lia.
  - intros r Hr. destruct (all_some_In _ _ _ _ Hall Hr) as [m [Hm Hmr]].
    apply In_firstn in Hm. apply filter_In in Hm. destruct Hm as [Hin Hmatch].
    exists m. split; [exact Hin|]. split; [exact Hmatch|].
    unfold MovieSearchResponse_of, MovieCreate_of in Hmr.
    destruct (m_title m), (m_genre m), (m_rating m), (m_duration m),
      (m_release_date m); try discriminate.
    injection Hmr as <-. cbn. repeat split; reflexivity.
  - intros Hfew m Hin Hmatch.
    rewrite firstn_all2 in Hall by exact Hfew.
    apply (all_some_complete _ _ _ m Hall).
    apply filter_In. auto.
Qed.

(** X11. An empty title, an empty genre and a rating of zero (of either
    sign) are taken as not given: the request is the same program as the
    one without that parameter, so a rating of 0 does not select the
    movies rated 0. *)
Theorem falsy_filters_ignored rt a title genre rating s :
  app E rt (GET_movies a (Some "") genre rating)
    = app E rt (GET_movies a None genre rating)
  /\ app E rt (GET_movies a title (Some "") rating)
     = app E rt (GET_movies a title None rating)
  /\ app E rt (GET_movies a title genre (Some (S754_zero s)))
     = app E rt (GET_movies a title genre None)
  /\ app E rt (GET_shows a (Some "") None) = app E rt (GET_shows a None None)
  /\ (forall m,
        movie_matches E (movie_query (Some "") (Some "") (Some (S754_zero s))) m
        = true).
Proof. repeat split; reflexivity. Qed.

(** ** Searching shows *)

Lemma run_shows_with_titles_valid shows db :
  Forall (fun s => ObjectId_of_str (sh_movie_id s) <> None) shows ->
  run E (shows_with_titles shows) db = (db, inr (map (titled db) shows)).
Proof.
  induction 1 as [|show rest Hshow _ IH]; [reflexivity|].
  cbn [shows_with_titles map]. unfold to_ObjectId, titled at 1.
  destruct (ObjectId_of_str (sh_movie_id show)) as [oid|]; [|congruence].
  rewrite run_hbind. cbn [ret run fst snd].
  rewrite run_hbind. cbn [await run exec fst snd].
  rewrite run_hbind, IH. reflexivity.
Qed.

Lemma run_shows_with_titles_invalid shows db :
  Exists (fun s => ObjectId_of_str (sh_movie_id s) = None) shows ->
  run E (shows_with_titles shows) db = (db, inl (Unhandled "InvalidId")).
Proof.
  induction shows as [|show rest IH]; intros H; [inversion H|].
  cbn [shows_with_titles]. unfold to_ObjectId at 1.
  destruct (ObjectId_of_str (sh_movie_id show)) as [oid|] eqn:Hoid;
    [|reflexivity].
  assert (Hrest : Exists (fun s => ObjectId_of_str (sh_movie_id s) = None) rest).
  { inversion H; subst; [congruence | assumption]. }
  rewrite run_hbind. cbn [ret run fst snd].
  rewrite run_hbind. cbn [await run exec fst snd].
  rewrite run_hbind, (IH Hrest). reflexivity.
Qed.

Lemma run_search_shows movie_id show_time u db r :
  run E (shows_with_titles
           (firstn 100 (filter (show_matches (show_query movie_id show_time))
                               (shows_collection db)))) db = (db, r) ->
  run E (search_shows movie_id show_time u) db =
  (db, match r with
       | inl e => inl e
       | inr l => inr (JShows l)
       end).
Proof.
  intros Hr. unfold search_shows. fold (show_query movie_id show_time).
  rewrite run_hbind. cbn [await run exec fst snd].
  rewrite run_hbind, Hr. cbn [fst snd]. destruct r; reflexivity.
Qed.

Lemma search_shows_joins_titles_aux movie_id show_time u db :
  let matched :=
    firstn 100 (filter (show_matches (show_query movie_id show_time))
                       (shows_collection db)) in
  (Forall (fun s => ObjectId_of_str (sh_movie_id s) <> None) matched ->
   run E (search_shows movie_id show_time u) db
   = (db, inr (JShows (map (titled db) matched))))
  /\ (Exists (fun s => ObjectId_of_str (sh_movie_id s) = None) matched ->
      run E (search_shows movie_id show_time u) db
      = (db, inl (Unhandled "InvalidId"))).
Proof.
  intros matched. split; intros H.
  - apply (run_search_shows movie_id show_time u db (inr (map (titled db) matched))).
    now apply run_shows_with_titles_valid.
  - apply (run_search_shows movie_id show_time u db (inl (Unhandled "InvalidId"))).
    now apply run_shows_with_titles_invalid.
Qed.

Lemma some_surely_invalid (shows : list Show) :
  Exists (fun s => surely_invalid (sh_movie_id s) = true) shows ->
  Exists (fun s => ObjectId_of_str (sh_movie_id s) = None) shows.
Proof.
  apply Exists_impl. intros s. apply surely_invalid_raises.
Qed.

(** X12. [search_shows] takes the first 100 shows that pass its
    filters (when a day is asked for, no stored show lying in the last
    millisecond of its day).  If the [movie_id] of every one of them is
    24 hexadecimal digits, the answer lists them in store order, each
    with the title of the first movie under that id, or null when there
    is no such movie; if for one of them [ObjectId] raises for certain,
    the whole search answers 500. *)
Theorem search_shows_joins_titles movie_id show_time u db :
  (show_time <> None -> Forall before_last_ms (shows_collection db)) ->
  let matched :=
    firstn 100 (filter (show_matches (show_query movie_id show_time))
                       (shows_collection db)) in
  (Forall (fun s => ObjectId_of_str (sh_movie_id s) <> None) matched ->
   run E (search_shows movie_id show_time u) db
   = (db, inr (JShows (map (titled db) matched))))
  /\ (Exists (fun s => surely_invalid (sh_movie_id s) = true) matched ->
      run E (search_shows movie_id show_time u) db
      = (db, inl (Unhandled "InvalidId"))).
Proof.
  intros _ matched. split.
  - apply (proj1 (search_shows_joins_titles_aux movie_id show_time u db)).
  - intros H.
    apply (proj2 (search_shows_joins_titles_aux movie_id show_time u db)).
    now apply some_surely_invalid.
Qed.

Lemma filter_all {A} (p : A -> bool) (l : list A) :
  (forall x, p x = true) -> filter p l = l.
Proof.
  intros H. induction l as [|x l IH]; simpl; [reflexivity|].
  now rewrite H, IH.
Qed.

(** X13. [create_show] checks no reference: an administrator can store
    a show under any [movie_id].  If [ObjectId] raises for certain on
    that string -- not 24 characters, or a character that is neither a
    hexadecimal digit nor a blank -- and the store holds fewer than 100
    shows, every later search over all the shows answers 500. *)
Theorem unchecked_show_breaks_search rt a show db u :
  snd (run E (current_user_dependency E rt a) db) = inr u ->
  u_is_admin u = Some true ->
  let db' := fst (run E (app E rt (POST_shows a show)) db) in
  snd (run E (app E rt (POST_shows a show)) db) = ok (JShow show)
  /\ (surely_invalid (shc_movie_id show) = true ->
      (List.length (shows_collection db) < 100)%nat ->
      forall rt' a' u',
        snd (run E (current_user_dependency E rt' a') db') = inr u' ->
        run E (app E rt' (GET_shows a' None None)) db'
        = (db', internal_server_error)).
Proof.
  intros Hu Hadmin db'.
  assert (Hrun : run E (app E rt (POST_shows a show)) db
                 = (bump_oid (set_shows db (shows_collection db ++
                      [{| sh_id := next_oid db; sh_movie_id := shc_movie_id show;
                          sh_screen_id := shc_screen_id show;
                          sh_show_time := shc_show_time show |}])),
                    ok (JShow show))).
  { unfold app. cbn [endpoint].
    rewrite run_behind_admin, Hu, (admin_passes u Hadmin). reflexivity. }
  unfold db'. rewrite Hrun. cbn [fst snd].
  split; [reflexivity|].
  intros Hbad Hfew rt' a' u' Hu'. unfold app. cbn [endpoint].
  rewrite run_behind_current_user, Hu', run_respond.
  rewrite (proj2 (search_shows_joins_titles_aux None None u' _)).
  - reflexivity.
  - cbn [shows_collection bump_oid set_shows].
    rewrite filter_all by reflexivity.
    rewrite firstn_all2 by (rewrite length_app; simpl; lia).
    apply Exists_app. right. constructor.
    cbn [sh_movie_id]. now apply surely_invalid_raises.
Qed.

(** ** From a search entry to the movie *)

Lemma hex_value_digit d : (d < 16)%N -> hex_value (hex_digit d) = Some d.
Proof.
  intros H.
  assert (Hd : (d = 0 \/ d = 1 \/ d = 2 \/ d = 3 \/ d = 4 \/ d = 5 \/ d = 6
                \/ d = 7 \/ d = 8 \/ d = 9 \/ d = 10 \/ d = 11 \/ d = 12
                \/ d = 13 \/ d = 14 \/ d = 15)%N) by lia.
  repeat (destruct Hd as [-> | Hd]; [reflexivity|]).
  subst d. reflexivity.
Qed.

Lemma parse_hex_app s1 s2 acc :
  parse_hex (s1 ++ s2) acc =
  match parse_hex s1 acc with
  | Some a => parse_hex s2 a
  | None => None
  end.
Proof.
  revert acc. induction s1 as [|c s1 IH]; intros acc; simpl; [reflexivity|].
  destruct (hex_value c); [apply IH | reflexivity].
Qed.

Lemma parse_hex_be w n acc :
  parse_hex (hex_be w n) acc = Some (acc * 16 ^ N.of_nat w + n mod 16 ^ N.of_nat w)%N.
Proof.
  revert n acc. induction w as [|w IH]; intros n acc.
  - cbn [hex_be parse_hex]. f_equal. change (16 ^ N.of_nat 0)%N with 1%N.
    rewrite N.mod_1_r. lia.
  - cbn [hex_be]. rewrite parse_hex_app, IH. cbn [parse_hex].
    rewrite hex_value_digit by (apply N.mod_lt; lia).
    f_equal. rewrite Nat2N.inj_succ, N.pow_succ_r'.
    rewrite (N.Div0.mod_mul_r n 16 (16 ^ N.of_nat w)). lia.
Qed.

Lemma length_string_app s1 s2 :
  String.length (s1 ++ s2) = (String.length s1 + String.length s2)%nat.
Proof. induction s1 as [|c s1 IH]; simpl; [reflexivity | now rewrite IH]. Qed.

Lemma length_hex_be w n : String.length (hex_be w n) = w.
Proof.
  revert n. induction w as [|w IH]; intros n; [reflexivity|].
  cbn [hex_be]. rewrite length_string_app, IH. simpl. lia.
Qed.

Lemma ObjectId_of_str_oid o :
  (o < 2 ^ 96)%N -> ObjectId_of_str (str_oid o) = Some o.
Proof.
  intros Ho. unfold ObjectId_of_str, str_oid.
  rewrite length_hex_be, Nat.eqb_refl, parse_hex_be.
  f_equal. change (16 ^ N.of_nat 24)%N with (2 ^ 96)%N.
  rewrite N.mod_small by exact Ho. lia.
Qed.

Lemma find_by_id (l : list Movie) m :
  NoDup (map m_id l) -> In m l ->
  find (fun m' => N.eqb (m_id m') (m_id m)) l = Some m.
Proof.
  induction l as [|x l IH]; simpl; [tauto|].
  intros Hnd [-> | Hin].
  - now rewrite N.eqb_refl.
  - inversion Hnd as [|? ? Hx Hl]; subst.
    destruct (N.eqb_spec (m_id x) (m_id m)) as [Heq|_]; [|now apply IH].
    exfalso. apply Hx. rewrite Heq. now apply in_map.
Qed.

(** The movie ids stay fresh. *)

Lemma update_first_ids (p : Movie -> bool) mu (l : list Movie) :
  map m_id (fst (update_first p (apply_set mu) l)) = map m_id l.
Proof.
  induction l as [|x l IH]; simpl; [reflexivity|].
  destruct (p x); [reflexivity|].
  destruct (update_first p (apply_set mu) l) as [l' n]. simpl in *.
  now rewrite IH.
Qed.

Lemma delete_first_incl {A} (p : A -> bool) (l : list A) :
  incl (fst (delete_first p l)) l.
Proof.
  induction l as [|x l IH]; simpl; [apply incl_refl|].
  destruct (p x); simpl; [apply incl_tl, incl_refl|].
  destruct (delete_first p l) as [l' n]. simpl in *.
  intros y [-> | Hy]; [now left | right; now apply IH].
Qed.

Lemma delete_first_nodup {A B} (f : A -> B) (p : A -> bool) (l : list A) :
  NoDup (map f l) -> NoDup (map f (fst (delete_first p l))).
Proof.
  induction l as [|x l IH]; simpl; [auto|].
  intros Hnd. inversion Hnd as [|? ? Hx Hl]; subst.
  destruct (p x); simpl; [exact Hl|].
  pose proof (delete_first_incl p l) as Hincl.
  destruct (delete_first p l) as [l' n]. simpl in *.
  constructor; [|now apply IH].
  intros Hin. apply Hx. apply in_map_iff in Hin.
  destruct Hin as [y [Hy Hin]]. rewrite <- Hy. apply in_map. now apply Hincl.
Qed.

Lemma movie_ids_fresh_bump db l :
  movies_collection l = movies_collection db ->
  (next_oid db <= next_oid l)%N ->
  movie_ids_fresh db -> movie_ids_fresh l.
Proof.
  intros Hm Hn [Hnd Hlt]. unfold movie_ids_fresh. rewrite Hm.
  split; [exact Hnd|].
  eapply Forall_impl; [|exact Hlt]. cbn. intros; lia.
Qed.

Lemma exec_movie_ids_fresh {X} (op : dbop X) db :
  movie_ids_fresh db -> movie_ids_fresh (fst (exec E op db)).
Proof.
  intros Hdb.
  destruct op; cbn [exec fst]; try exact Hdb;
    try (apply (movie_ids_fresh_bump db); [reflexivity | cbn; lia | exact Hdb]).
  - destruct Hdb as [Hnd Hlt]. split; cbn.
    + rewrite map_app. cbn. apply NoDup_app; [exact Hnd | | ].
      * constructor; [simpl; tauto | constructor].
      * intros x Hx [<- | []]. apply in_map_iff in Hx.
        destruct Hx as [m [Hm Hin]]. rewrite Forall_forall in Hlt.
        specialize (Hlt m Hin). lia.
    + apply Forall_app. split.
      * eapply Forall_impl; [|exact Hlt]. cbn. intros; lia.
      * constructor; [cbn; lia | constructor].
  - destruct Hdb as [Hnd Hlt].
    pose proof (update_first_ids (fun m => N.eqb (m_id m) _id) set
                  (movies_collection db)) as Hids.
    destruct (update_first _ _ _) as [l n]. cbn in *.
    split; cbn; [now rewrite Hids|].
    rewrite Forall_forall in *. intros m Hm.
    assert (Hin : In (m_id m) (map m_id (movies_collection db)))
      by (rewrite <- Hids; now apply in_map).
    apply in_map_iff in Hin. destruct Hin as [m0 [<- Hm0]]. now apply Hlt.
  - destruct Hdb as [Hnd Hlt].
    pose proof (delete_first_nodup m_id (fun m => N.eqb (m_id m) _id)
                  (movies_collection db) Hnd) as Hnd'.
    pose proof (delete_first_incl (fun m => N.eqb (m_id m) _id)
                  (movies_collection db)) as Hincl.
    destruct (delete_first _ _) as [l n]. cbn in *.
    split; cbn; [exact Hnd'|].
    rewrite Forall_forall in *. intros m Hm. apply Hlt. now apply Hincl.
  - destruct (find _ _); cbn; [exact Hdb|].
    apply (movie_ids_fresh_bump db); [reflexivity | cbn; lia | exact Hdb].
Qed.

Lemma steps_movie_ids_fresh s t :
  steps E s t -> movie_ids_fresh (store s) -> movie_ids_fresh (store t).
Proof.
  induction 1 as [|s t u _ IH Hstep]; intros Hs; [exact Hs|].
  specialize (IH Hs). destruct Hstep; cbn in *; auto.
  now apply exec_movie_ids_fresh.
Qed.

(** X14. In every state the server reaches, as long as fewer than 2^96
    [_id]s have been drawn, each entry of a movie search leads back to
    its movie: reading the [movie_id] of the entry answers the very
    fields the entry shows. *)
Theorem search_entry_reads_back s title genre rating u l r :
  reachable E s ->
  (next_oid (store s) <= 2 ^ 96)%N ->
  snd (run E (search_movies title genre rating u) (store s)) = inr (JMovies l) ->
  In r l ->
  forall u',
    run E (read_movie (msr_movie_id r) u') (store s)
    = (store s, inr (JMovie (MovieCreate_of_entry r))).
Proof.
  intros Hs Hbound Hsearch Hr u'.
  assert (Hfresh : movie_ids_fresh (store s)).
  { apply (steps_movie_ids_fresh initial s Hs).
    split; [constructor | constructor]. }
  destruct Hfresh as [Hnd Hlt].
  rewrite run_search_movies in Hsearch. cbn [snd] in Hsearch.
  destruct (all_some _ _) as [l0|] eqn:Hall; [|discriminate].
  injection Hsearch as ->.
  destruct (all_some_In _ _ _ _ Hall Hr) as [m [Hm Hmr]].
  apply In_firstn in Hm. apply filter_In in Hm. destruct Hm as [Hin _].
  rewrite Forall_forall in Hlt. specialize (Hlt m Hin).
  unfold MovieSearchResponse_of in Hmr.
  destruct (MovieCreate_of m) as [mc|] eqn:Hmc; [|discriminate].
  injection Hmr as <-. cbn [msr_movie_id].
  rewrite run_read_movie, ObjectId_of_str_oid by lia.
  rewrite (find_by_id _ m Hnd Hin), Hmc.
  unfold MovieCreate_of_entry. cbn. now destruct mc.
Qed.

(** ** What no route takes back *)

Lemma grown_refl {A} (l : list A) : grown l l.
Proof. exists []. now rewrite app_nil_r. Qed.

Lemma grown_trans {A} (a b c : list A) : grown a b -> grown b c -> grown a c.
Proof.
  intros [l1 ->] [l2 ->]. exists (l1 ++ l2)%list. now rewrite app_assoc.
Qed.

Lemma grown_one {A} (l : list A) x : grown l (l ++ [x]).
Proof. now exists [x]. Qed.

Lemma append_only_refl db : append_only db db.
Proof. repeat split; apply grown_refl. Qed.

Lemma append_only_trans a b c :
  append_only a b -> append_only b c -> append_only a c.
Proof.
  intros [H1 [H2 [H3 H4]]] [K1 [K2 [K3 K4]]].
  repeat split; eapply grown_trans; eauto.
Qed.

Lemma exec_append_only {X} (op : dbop X) db :
  append_only db (fst (exec E op db)).
Proof.
  destruct op; cbn [exec fst]; try apply append_only_refl;
    try (repeat split; cbn; first [apply grown_one | apply grown_refl]).
  - destruct (update_first _ _ _). repeat split; apply grown_refl.
  - destruct (delete_first _ _). repeat split; apply grown_refl.
  - destruct (find _ _); [apply append_only_refl|].
    repeat split; cbn; first [apply grown_one | apply grown_refl].
Qed.

Lemma steps_append_only s t : steps E s t -> append_only (store s) (store t).
Proof.
  induction 1 as [|s t u _ IH Hstep]; [apply append_only_refl|].
  eapply append_only_trans; [exact IH|].
  destruct Hstep; cbn; try apply append_only_refl. apply exec_append_only.
Qed.

(** X15. No route edits or removes a user, a cinema hall, a screen or a
    booking: along any run of the server these four collections only
    get documents appended.  So an email that resolves to a user keeps
    resolving to that same record -- same [_id], same password hash,
    same [is_admin] -- in every later state. *)
Theorem accounts_are_permanent s t :
  steps E s t ->
  grown (users_collection (store s)) (users_collection (store t))
  /\ grown (cinema_halls_collection (store s)) (cinema_halls_collection (store t))
  /\ grown (screens_collection (store s)) (screens_collection (store t))
  /\ grown (bookings_collection (store s)) (bookings_collection (store t))
  /\ (forall email u,
        snd (run E (get_user email) (store s)) = inr (Some u) ->
        snd (run E (get_user email) (store t)) = inr (Some u)).
Proof.
  intros Hst. destruct (steps_append_only s t Hst) as [Hu [Hh [Hsc Hb]]].
  repeat split; try assumption.
  intros email u. cbn. intros [= Hfind]. f_equal. f_equal.
  destruct Hu as [more ->]. now apply find_app_some.
Qed.

(** ** Many callers, one seat *)

Lemma drive_all_taken reqs sid seat db b0 :
  Forall (fun r => bc_show_id (fst r) = sid /\ bc_seat_number (fst r) = seat) reqs ->
  int64 seat = true ->
  find (booking_matches sid seat) (bookings_collection db) = Some b0 ->
  drive_all E (map (fun r => create_booking (fst r) (snd r)) reqs) db
  = (db, repeat (Some (inl (HTTPException 400 "Seat already booked" [])))
                (List.length reqs)).
Proof.
  induction 1 as [|[b u] reqs [Hs Hn] _ IH]; intros Hseat Hfind; [reflexivity|].
  cbn [map drive_all fst snd]. cbn [fst snd] in Hs, Hn.
  rewrite drive_create_booking by (now rewrite Hn).
  rewrite Hs, Hn, Hfind, (IH Hseat Hfind). reflexivity.
Qed.

(** X16. Any number of [create_booking] calls for one free seat with a
    number of 64 bits, served one after the other, each to its end, in
    any order: the first one served gets "Booking successful", every
    other one 400 "Seat already booked", and the store ends with exactly
    one booking for the seat, that of the first caller. *)
Theorem one_seat_one_winner first others sid seat db :
  Forall (fun r => bc_show_id (fst r) = sid /\ bc_seat_number (fst r) = seat)
         (first :: others) ->
  int64 seat = true ->
  (forall b, In b (bookings_collection db) ->
             ~ (b_show_id b = sid /\ b_seat_number b = seat)) ->
  let outcome :=
    drive_all E (map (fun r => create_booking (fst r) (snd r)) (first :: others))
              db in
  snd outcome
  = Some (inr (JMessage "Booking successful"))
    :: repeat (Some (inl (HTTPException 400 "Seat already booked" [])))
              (List.length others)
  /\ bookings_of sid seat (fst outcome)
     = [{| b_id := next_oid db; b_show_id := sid;
           b_user_id := str_oid (u_id (snd first)); b_seat_number := seat |}].
Proof.
  intros Hall Hseat Hplain outcome. unfold outcome.
  pose proof (free_pair_find _ _ _ Hplain) as Hfree.
  inversion Hall as [|? ? Hfirst Hothers]; subst.
  destruct first as [b u]. cbn [fst snd] in *. destruct Hfirst as [Hs Hn].
  subst sid seat.
  cbn [map drive_all fst snd]. rewrite (drive_create_booking E b u db Hseat), Hfree.
  set (rec := {| b_id := next_oid db; b_show_id := bc_show_id b;
                 b_user_id := str_oid (u_id u);
                 b_seat_number := bc_seat_number b |}).
  set (db1 := bump_oid (set_bookings db (bookings_collection db ++ [rec]))).
  assert (Hrec : booking_matches (bc_show_id b) (bc_seat_number b) rec = true).
  { unfold booking_matches. cbn. now rewrite String.eqb_refl, Z.eqb_refl. }
  assert (Hfind : find (booking_matches (bc_show_id b) (bc_seat_number b))
                       (bookings_collection db1) = Some rec).
  { cbn. rewrite (find_app_none _ _ _ Hfree). cbn [find]. now rewrite Hrec. }
  rewrite (drive_all_taken others _ _ db1 rec Hothers Hseat Hfind).
  cbn [fst snd].
  split; [reflexivity|].
  unfold bookings_of. cbn. rewrite filter_app.
  apply find_none_filter in Hfree. rewrite Hfree. cbn [filter List.app].
  now rewrite Hrec.
Qed.

(** ** A movie just created *)

Lemma all_some_app {A B} (f : A -> option B) (l1 l2 : list A) :
  all_some f (l1 ++ l2) =
  match all_some f l1, all_some f l2 with
  | Some a, Some b => Some (a ++ b)%list
  | _, _ => None
  end.
Proof.
  induction l1 as [|x l1 IH]; simpl.
  - now destruct (all_some f l2).
  - destruct (f x); [|reflexivity]. rewrite IH.
    destruct (all_some f l1), (all_some f l2); reflexivity.
Qed.

(** X17. A movie an administrator creates, of values BSON keeps as
    given, is found: on a store with
    fewer than 100 movies, where the search over all movies answered
    [entries], the same search after the creation answers [entries]
    followed by the new movie, under the string of a fresh [_id]. *)
Theorem created_movie_is_found rt a movie db u u0 entries :
  snd (run E (current_user_dependency E rt a) db) = inr u ->
  u_is_admin u = Some true ->
  snd (run E (search_movies None None None u0) db) = inr (JMovies entries) ->
  (List.length (movies_collection db) < 100)%nat ->
  stored_as_given movie ->
  let db' := fst (run E (app E rt (POST_movies a movie)) db) in
  snd (run E (app E rt (POST_movies a movie)) db) = ok (JMovie movie)
  /\ forall u',
       run E (search_movies None None None u') db'
       = (db', inr (JMovies (entries ++
            [{| msr_movie_id := str_oid (next_oid db);
                msr_title := mc_title movie; msr_genre := mc_genre movie;
                msr_rating := mc_rating movie;
                msr_duration := mc_duration movie;
                msr_release_date := mc_release_date movie |}]))).
Proof.
  intros Hu Hadmin Hsearch Hfew _ db'.
  assert (Hrun : run E (app E rt (POST_movies a movie)) db
                 = (bump_oid (set_movies db (movies_collection db ++
                      [{| m_id := next_oid db; m_title := Some (mc_title movie);
                          m_genre := Some (mc_genre movie);
                          m_rating := Some (mc_rating movie);
                          m_duration := Some (mc_duration movie);
                          m_release_date := Some (mc_release_date movie) |}])),
                    ok (JMovie movie))).
  { unfold app. cbn [endpoint].
    rewrite run_behind_admin, Hu, (admin_passes u Hadmin). reflexivity. }
  unfold db'. rewrite Hrun. cbn [fst snd]. split; [reflexivity|].
  intros u'. rewrite run_search_movies in Hsearch |- *.
  cbn [snd movies_collection bump_oid set_movies] in Hsearch |- *.
  rewrite filter_all in Hsearch |- * by reflexivity.
  rewrite firstn_all2 in Hsearch by lia.
  rewrite firstn_all2 by (rewrite length_app; simpl; lia).
  rewrite all_some_app.
  destruct (all_some MovieSearchResponse_of (movies_collection db));
    [|discriminate].
  injection Hsearch as ->. reflexivity.
Qed.

(** ** A deletion cut short *)

Lemma delete_first_found {A} (p : A -> bool) (l : list A) x :
  find p l = Some x ->
  exists l1 l2,
    l = (l1 ++ x :: l2)%list /\ delete_first p l = ((l1 ++ l2)%list, 1).
Proof.
  induction l as [|y l IH]; simpl; [discriminate|].
  destruct (p y) eqn:Hy.
  - intros [= ->]. exists [], l. auto.
  - intros Hf. destruct (IH Hf) as [l1 [l2 [-> ->]]].
    exists (y :: l1), l2. auto.
Qed.

Lemma act_arrive db pool rt req :
  act E {| store := db; inflight := pool |} (Arrive rt req)
  = {| store := db; inflight := (pool ++ [app E rt req])%list |}.
Proof. reflexivity. Qed.

Lemma act_call_head db X (op : dbop X) k rest :
  act E {| store := db; inflight := Do op k :: rest |} (Call 0)
  = {| store := fst (exec E op db);
       inflight := k (snd (exec E op db)) :: rest |}.
Proof. reflexivity. Qed.

Lemma act_leave_head db p rest :
  act E {| store := db; inflight := p :: rest |} (Leave 0)
  = {| store := db; inflight := rest |}.
Proof. reflexivity. Qed.

(** X18. Deleting a movie takes two calls on the store, the movie
    first and its shows second.  If the request is dropped in between,
    the movie is gone and every show of the store, those of the movie
    included, is still there. *)
Theorem deletion_cut_short rt a id db token payload email u oid m :
  oauth2_scheme a = inr token ->
  jwt_decode E (utcnow rt) token (SECRET_KEY E) [ALGORITHM E] = inr payload ->
  claim_sub payload = Some email ->
  find (fun u => String.eqb (u_email u) email) (users_collection db) = Some u ->
  u_is_admin u = Some true ->
  ObjectId_of_str id = Some oid ->
  find (fun m => N.eqb (m_id m) oid) (movies_collection db) = Some m ->
  let t := play E {| store := db; inflight := [] |}
             [Arrive rt (DELETE_movie a id); Call 0; Call 0; Leave 0] in
  steps E {| store := db; inflight := [] |} t
  /\ inflight t = []
  /\ (exists before after,
        movies_collection db = (before ++ m :: after)%list
        /\ movies_collection (store t) = (before ++ after)%list)
  /\ shows_collection (store t) = shows_collection db.
Proof.
  intros Htoken Hdecode Hsub Huser Hadmin Hid Hm t.
  split; [apply play_steps|].
  destruct (delete_first_found _ _ _ Hm) as [l1 [l2 [Hl Hdf]]].
  assert (Hprog : app E rt (DELETE_movie a id)
                  = Do (Users_find_one email)
                       (fun x =>
                          respond
                            (hbind
                               (hbind
                                  (hbind (Ret (inr x))
                                     (fun user =>
                                        match user with
                                        | None => raise credentials_exception
                                        | Some u => ret u
                                        end))
                                  (fun user => lift (is_admin_user user)))
                               (fun u => delete_movie id u)))).
  { unfold app, endpoint, admin_dependency, current_user_dependency,
      get_current_user.
    rewrite Htoken. cbn [lift hbind bind]. rewrite Hdecode, Hsub.
    reflexivity. }
  assert (Hdelete : forall u0,
            delete_movie id u0
            = Do (Movies_delete_one oid)
                 (fun deleted_count =>
                    hbind (Ret (inr deleted_count))
                      (fun deleted_count =>
                         if deleted_count =? 0
                         then raise (HTTPException 404 "Movie not found" [])
                         else
                           hbind (await (Shows_delete_many id))
                             (fun _ =>
                                ret (JMessage "Movie and related shows deleted"))))).
  { intros u0. unfold delete_movie, to_ObjectId. rewrite Hid. reflexivity. }
  unfold t, play. cbn [fold_left]. rewrite act_arrive. cbn [List.app].
  rewrite Hprog, act_call_head. cbn [exec fst snd]. rewrite Huser.
  cbn [hbind bind respond ret]. rewrite (admin_passes u Hadmin).
  cbn [lift bind]. rewrite Hdelete. cbn [bind].
  rewrite act_call_head. cbn [exec]. rewrite Hdf.
  cbn [fst snd Z.eqb hbind bind await]. rewrite act_leave_head.
  split; [reflexivity|]. split; [|reflexivity].
  exists l1, l2. split; [exact Hl | reflexivity].
Qed.

End Handlers.

(** * The further statements at work on the sample data *)

Lemma login_refuses_uniformly_witness :
  snd (run example_env (get_user "nobody@example.com") example_db) = inr None
  /\ snd (run example_env
            (app example_env example_rt (POST_token "nobody@example.com" "x"))
            example_db) = login_refused
  /\ pwd_verify example_env "guess" (u_password alice_account) = false
  /\ snd (run example_env
            (app example_env example_rt (POST_token "alice@example.com" "guess"))
            example_db) = login_refused
  /\ pwd_verify example_env "wonderland" (u_password alice_account) = true
  /\ snd (run example_env
            (app example_env example_rt
               (POST_token "alice@example.com" "wonderland")) example_db)
     = ok (JToken (login_token example_env (utcnow example_rt)
                     "alice@example.com") "bearer").
Proof.
  assert (Hnobody : snd (run example_env (get_user "nobody@example.com")
                           example_db) = inr None) by reflexivity.
  assert (Halice : snd (run example_env (get_user "alice@example.com")
                          example_db) = inr (Some alice_account)) by reflexivity.
  assert (Hbad : pwd_verify example_env "guess" (u_password alice_account)
                 = false) by reflexivity.
  assert (Hgood : pwd_verify example_env "wonderland" (u_password alice_account)
                  = true) by reflexivity.
  split; [exact Hnobody|]. split.
  - exact (proj1 (proj2 (login_refuses_uniformly example_env example_rt
                           "nobody@example.com" "x" example_db)) Hnobody).
  - split; [exact Hbad|]. split.
    + exact (proj1 (proj2 (proj2 (login_refuses_uniformly example_env example_rt
                             "alice@example.com" "guess" example_db))
                      alice_account Halice) Hbad).
    + split; [exact Hgood|].
      exact (proj2 (proj2 (proj2 (login_refuses_uniformly example_env example_rt
                             "alice@example.com" "wonderland" example_db))
                      alice_account Halice) Hgood).
Defined.

Lemma login_token_resolves_witness :
  let t := utcnow example_rt in
  let token := login_token example_env t "alice@example.com" in
  run example_env
      (current_user_dependency example_env
         {| utcnow := t + timedelta_minutes 30; gensalt := "salt" |}
         (bearer token)) example_db
  = (example_db, inr alice_account)
  /\ run example_env
       (current_user_dependency example_env
          {| utcnow := t + timedelta_minutes 30 + 1000000; gensalt := "salt" |}
          (bearer token)) example_db
     = (example_db, inl credentials_exception).
Proof.
  intros t token.
  assert (Hjws : jws_verify example_env token (SECRET_KEY example_env)
                   [ALGORITHM example_env]
                 = Some (issued_claims "alice@example.com"
                           (Some (timedelta_minutes
                                    (ACCESS_TOKEN_EXPIRE_MINUTES example_env))) t))
    by (vm_compute; reflexivity).
  split.
  - refine (proj1 (login_token_resolves example_env t "alice@example.com"
                     {| utcnow := t + timedelta_minutes 30; gensalt := "salt" |}
                     example_db Hjws) _).
    vm_compute. discriminate.
  - refine (proj1 (proj2 (login_token_resolves example_env t "alice@example.com"
                     {| utcnow := t + timedelta_minutes 30 + 1000000;
                        gensalt := "salt" |}
                     example_db Hjws)) _).
    vm_compute. reflexivity.
Defined.

Lemma signup_then_login_witness :
  users_with_email "bob@example.com" example_db = []
  /\ snd (run example_env
            (app example_env example_rt (POST_token "bob@example.com" "builder"))
            (fst (run example_env (app example_env example_rt (POST_signup bob))
                    example_db)))
     = ok (JToken (login_token example_env (utcnow example_rt)
                     "bob@example.com") "bearer")
  /\ snd (run example_env
            (app example_env example_rt (POST_token "alice@example.com" "hunter2"))
            (fst (run example_env
                    (app example_env example_rt (POST_signup mallory))
                    example_db)))
     = login_refused.
Proof.
  assert (Hfree : users_with_email (uc_email bob) example_db = [])
    by reflexivity.
  split; [exact Hfree|]. split.
  - exact (f_equal snd
             (proj1 (signup_then_login example_env example_rt bob example_db
                       example_rt) Hfree eq_refl)).
  - exact (f_equal snd
             (proj2 (signup_then_login example_env example_rt mallory example_db
                       example_rt) alice_account eq_refl eq_refl)).
Defined.


Lemma reading_routes_leave_store_witness :
  fst (run example_env
         (app example_env example_rt (GET_shows as_alice None (Some 19675)))
         catalogue_db) = catalogue_db.
Proof.
  exact (reading_routes_leave_store example_env example_rt
           (GET_shows as_alice None (Some 19675)) catalogue_db eq_refl).
Defined.

Lemma delete_movie_cascades_witness :
  shows_collection catalogue_db <> []
  /\ shows_collection
       (fst (run example_env
               (delete_movie "000000000000000000000002" root_account)
               catalogue_db)) = []
  /\ run example_env
       (search_shows (Some "000000000000000000000002") None alice_account)
       (fst (run example_env
               (delete_movie "000000000000000000000002" root_account)
               catalogue_db))
     = (fst (run example_env
               (delete_movie "000000000000000000000002" root_account)
               catalogue_db), inr (JShows [])).
Proof.
  pose proof (delete_movie_cascades example_env "000000000000000000000002"
                root_account catalogue_db eq_refl)
    as [_ [Hshows [_ [_ [_ [_ [_ Hsearch]]]]]]].
  split; [vm_compute; discriminate|]. split.
  - rewrite Hshows. reflexivity.
  - apply Hsearch.
Defined.


Lemma update_then_read_witness :
  run example_env (read_movie "000000000000000000000002" alice_account)
      (fst (run example_env
              (update_movie "000000000000000000000002" rename root_account)
              catalogue_db))
  = (fst (run example_env
            (update_movie "000000000000000000000002" rename root_account)
            catalogue_db),
     inr (JMovie {| mc_title := "Metropolis (restored)"; mc_genre := "sci-fi";
                    mc_rating := four_and_a_half; mc_duration := 153;
                    mc_release_date := 0 |})).
Proof.
  pose proof (update_then_read example_env "000000000000000000000002" rename
                root_account catalogue_db 2%N metropolis_doc eq_refl eq_refl
                eq_refl (conj I I))
    as [_ [_ [_ [_ [_ [_ [_ [_ [Hread _]]]]]]]]].
  rewrite (Hread alice_account). reflexivity.
Defined.


Lemma search_movies_sound_witness :
  snd (run example_env
         (search_movies (Some "metro") None (Some four) alice_account)
         catalogue_db)
  = inr (JMovies [metropolis_entry "000000000000000000000002"])
  /\ exists m,
       In m (movies_collection catalogue_db)
       /\ movie_matches example_env
            (movie_query (Some "metro") None (Some four)) m = true
       /\ m_title m = Some "Metropolis".
Proof.
  assert (Hrun : snd (run example_env
                        (search_movies (Some "metro") None (Some four)
                           alice_account) catalogue_db)
                 = inr (JMovies [metropolis_entry "000000000000000000000002"]))
    by (vm_compute; reflexivity).
  split; [exact Hrun|].
  pose proof (search_movies_sound example_env (Some "metro") None (Some four)
                alice_account catalogue_db
                [metropolis_entry "000000000000000000000002"] Hrun)
    as [_ [Hsound _]].
  destruct (Hsound (metropolis_entry "000000000000000000000002")
              (or_introl eq_refl))
    as [m [Hin [Hmatch [_ [Htitle _]]]]].
  exists m. split; [exact Hin|]. split; [exact Hmatch | exact Htitle].
Defined.

Lemma search_shows_joins_titles_witness :
  run example_env (search_shows None (Some 19675) alice_account) catalogue_db
  = (catalogue_db,
     inr (JShows [{| sr_show_id := "000000000000000000000003";
                     sr_movie_id := "000000000000000000000002";
                     sr_screen_id := "screen-1";
                     sr_show_time := 1700000000000000;
                     sr_movie_title := Some "Metropolis" |}]))
  /\ run example_env (search_shows None None alice_account) stray_db
     = (stray_db, inl (Unhandled "InvalidId")).
Proof.
  split.
  - assert (Hday : Some 19675 <> None ->
                   Forall before_last_ms (shows_collection catalogue_db)).
    { intros _. apply Forall_forall. intros s Hs. vm_compute in Hs.
      destruct Hs as [<- | []]. vm_compute. reflexivity. }
    eapply eq_trans.
    + apply (proj1 (search_shows_joins_titles example_env None (Some 19675)
                      alice_account catalogue_db Hday)).
      apply Forall_forall. intros s Hs. vm_compute in Hs.
      destruct Hs as [<- | []]. vm_compute. discriminate.
    + vm_compute. reflexivity.
  - apply (proj2 (search_shows_joins_titles example_env None None
                    alice_account stray_db
                    (fun H => False_ind _ (H eq_refl)))).
    apply Exists_exists.
    exists {| sh_id := 4%N; sh_movie_id := "no such movie";
              sh_screen_id := "screen-1"; sh_show_time := 1700000000000000 |}.
    split; [vm_compute; right; left; reflexivity | reflexivity].
Defined.

Lemma unchecked_show_breaks_search_witness :
  snd (run example_env
         (app example_env example_rt (POST_shows as_root stray_show))
         catalogue_db) = ok (JShow stray_show)
  /\ run example_env (app example_env example_rt (GET_shows as_alice None None))
         stray_db
     = (stray_db, internal_server_error).
Proof.
  pose proof (unchecked_show_breaks_search example_env example_rt as_root
                stray_show catalogue_db root_account eq_refl eq_refl)
    as [Hok Hbreaks].
  split; [exact Hok|].
  apply (Hbreaks eq_refl) with (u' := alice_account).
  - vm_compute. lia.
  - reflexivity.
Defined.

Lemma search_entry_reads_back_witness :
  reachable example_env cinema_state
  /\ run example_env (read_movie "000000000000000000000001" alice_account)
         (store cinema_state)
     = (store cinema_state, inr (JMovie metropolis)).
Proof.
  assert (Hreach : reachable example_env cinema_state)
    by (exact (play_steps example_env _ initial)).
  split; [exact Hreach|].
  assert (Hbound : (next_oid (store cinema_state) <= 2 ^ 96)%N)
    by (vm_compute; discriminate).
  assert (Hsearch : snd (run example_env
                           (search_movies None None None alice_account)
                           (store cinema_state))
                    = inr (JMovies [metropolis_entry "000000000000000000000001"]))
    by (vm_compute; reflexivity).
  exact (search_entry_reads_back example_env cinema_state None None None
           alice_account [metropolis_entry "000000000000000000000001"]
           (metropolis_entry "000000000000000000000001")
           Hreach Hbound Hsearch (or_introl eq_refl) alice_account).
Defined.

Lemma accounts_are_permanent_witness :
  steps example_env {| store := example_db; inflight := [] |}
        (play example_env {| store := example_db; inflight := [] |}
           [Arrive example_rt (POST_signup mallory); Call 0; Leave 0])
  /\ snd (run example_env (get_user "alice@example.com")
            (store (play example_env {| store := example_db; inflight := [] |}
                      [Arrive example_rt (POST_signup mallory); Call 0; Leave 0])))
     = inr (Some alice_account).
Proof.
  assert (Hsteps : steps example_env {| store := example_db; inflight := [] |}
                     (play example_env {| store := example_db; inflight := [] |}
                        [Arrive example_rt (POST_signup mallory); Call 0; Leave 0]))
    by apply play_steps.
  split; [exact Hsteps|].
  pose proof (accounts_are_permanent example_env _ _ Hsteps)
    as [_ [_ [_ [_ Hsame]]]].
  apply (Hsame "alice@example.com" alice_account). reflexivity.
Defined.

Lemma one_seat_one_winner_witness :
  int64 5 = true
  /\ snd (drive_all example_env
            (map (fun r => create_booking (fst r) (snd r))
                 [(seat5, root_account); (seat5_again, alice_account);
                  (seat5, root_account)])
            example_db)
     = [Some (inr (JMessage "Booking successful"));
        Some (inl (HTTPException 400 "Seat already booked" []));
        Some (inl (HTTPException 400 "Seat already booked" []))].
Proof.
  assert (Hseat : int64 5 = true) by reflexivity.
  assert (Hfree : forall b, In b (bookings_collection example_db) ->
                    ~ (b_show_id b = "show-1" /\ b_seat_number b = 5))
    by (intros b []).
  split; [exact Hseat|].
  refine (proj1 (one_seat_one_winner example_env (seat5, root_account)
                   [(seat5_again, alice_account); (seat5, root_account)]
                   "show-1" 5 example_db _ Hseat Hfree)).
  repeat constructor.
Defined.

Lemma created_movie_is_found_witness :
  snd (run example_env (search_movies None None None alice_account) example_db)
    = inr (JMovies [])
  /\ run example_env (search_movies None None None alice_account)
         (fst (run example_env
                 (app example_env example_rt (POST_movies as_root metropolis))
                 example_db))
     = (fst (run example_env
               (app example_env example_rt (POST_movies as_root metropolis))
               example_db),
        inr (JMovies [metropolis_entry "000000000000000000000002"])).
Proof.
  assert (Hsearch : snd (run example_env
                           (search_movies None None None alice_account)
                           example_db) = inr (JMovies [])) by reflexivity.
  split; [exact Hsearch|].
  assert (Hfew : (List.length (movies_collection example_db) < 100)%nat)
    by (vm_compute; lia).
  assert (Hgiven : stored_as_given metropolis)
    by (unfold stored_as_given, bson_exact_datetime, bson_exact_int;
        cbn; split; [reflexivity | lia]).
  eapply eq_trans.
  - apply (proj2 (created_movie_is_found example_env example_rt as_root
                    metropolis example_db root_account alice_account []
                    eq_refl eq_refl Hsearch Hfew Hgiven)).
  - vm_compute. reflexivity.
Defined.

Lemma deletion_cut_short_witness :
  shows_collection
    (store (play example_env {| store := catalogue_db; inflight := [] |}
              [Arrive example_rt (DELETE_movie as_root "000000000000000000000002");
               Call 0; Call 0; Leave 0]))
  = shows_collection catalogue_db
  /\ shows_collection catalogue_db <> []
  /\ movies_collection catalogue_db = [metropolis_doc].
Proof.
  pose proof (deletion_cut_short example_env example_rt as_root
                "000000000000000000000002" catalogue_db
                "HS256.s3cr3t.000000006553f808.=root@example.com"
                {| claim_sub := Some "root@example.com";
                   claim_exp := Some 1700001800 |}
                "root@example.com" root_account 2%N metropolis_doc
                eq_refl eq_refl eq_refl eq_refl eq_refl eq_refl eq_refl)
    as [_ [_ [_ Hshows]]].
  split; [exact Hshows|]. split; [vm_compute; discriminate | reflexivity].
Defined.
